(** * Leave management store: the in-memory database of [db.py]

    A shallow embedding of the employee table, the leave table and the
    operations on them ([create_leave], [approve_leave_record],
    [reject_leave_record], [cancel_leave_record] and the read-only queries),
    followed by the properties of the request life cycle and of the balance
    ledger.

    Conventions of the embedding:
    - a Python [int] is a [Z];
    - a Python [str] is a [string]; [upper] and [lower] are the ASCII case
      mappings (identifiers, leave types and dates are ASCII text);
    - [EMPLOYEES] and every [leave_balance] are dictionaries whose keys
      never change: they are [gmap]s, and where the order of [EMPLOYEES] is
      observed it is the order of the literal, [EMPLOYEES_keys];
    - [LEAVES] is a dictionary whose iteration order is observed: it is an
      association list kept in insertion order, with Python's rule that
      assigning to an existing key keeps the key's position;
    - a status is one of four literals: an enumeration;
    - the module-level globals are threaded through a state-and-exception
      monad; [raise ValueError(...)] is [raise] with a constructor that
      carries what the message interpolates;
    - [datetime.now()] is an input: every operation receives the formatted
      clock readings it makes. *)

From Stdlib Require Import ZArith NArith Lia String Ascii DecimalString DecimalN.
From stdpp Require Import gmap strings list sorting.

Open Scope Z_scope.

(** ** Text *)

Definition upper_ascii (c : ascii) : ascii :=
  let n := N_of_ascii c in
  if ((97 <=? n) && (n <=? 122))%N then ascii_of_N (n - 32) else c.

Definition lower_ascii (c : ascii) : ascii :=
  let n := N_of_ascii c in
  if ((65 <=? n) && (n <=? 90))%N then ascii_of_N (n + 32) else c.

(** [str.upper()] *)
Fixpoint upper (s : string) : string :=
  match s with
  | EmptyString => EmptyString
  | String c r => String (upper_ascii c) (upper r)
  end.

(** [str.lower()] *)
Fixpoint lower (s : string) : string :=
  match s with
  | EmptyString => EmptyString
  | String c r => String (lower_ascii c) (lower r)
  end.

Fixpoint zeros (n : nat) : string :=
  match n with
  | O => EmptyString
  | S k => String "0" (zeros k)
  end.

(** Left padding with ['0'] up to [width] characters. *)
Definition zero_pad (width : nat) (ds : string) : string :=
  zeros (width - String.length ds) +:+ ds.

Definition decimal (n : N) : string := NilEmpty.string_of_uint (N.to_uint n).

(** The format specification [03d]: sign-aware zero padding to width 3. *)
Definition format_03d (n : Z) : string :=
  if n <? 0 then String "-" (zero_pad 2 (decimal (Z.abs_N n)))
  else zero_pad 3 (decimal (Z.to_N n)).

(** ** Calendar dates ([datetime.date])

    The proleptic Gregorian calendar of Python's [datetime] module: a date
    is a triple that passed the constructor's range checks, dates compare
    as triples, and the difference of two dates is the difference of their
    ordinals. *)

Record date := mk_date { year : Z; month : Z; day : Z }.

Definition _is_leap (y : Z) : bool :=
  (y mod 4 =? 0) && (negb (y mod 100 =? 0) || (y mod 400 =? 0)).

Definition _days_before_year (y : Z) : Z :=
  let y := y - 1 in y * 365 + y / 4 - y / 100 + y / 400.

Definition _DAYS_IN_MONTH : list Z :=
  [-1; 31; 28; 31; 30; 31; 30; 31; 31; 30; 31; 30; 31].

Definition _DAYS_BEFORE_MONTH : list Z :=
  [-1; 0; 31; 59; 90; 120; 151; 181; 212; 243; 273; 304; 334].

Definition _days_in_month (y m : Z) : Z :=
  if (m =? 2) && _is_leap y then 29
  else nth (Z.to_nat m) _DAYS_IN_MONTH 0.

Definition _days_before_month (y m : Z) : Z :=
  nth (Z.to_nat m) _DAYS_BEFORE_MONTH 0
  + (if (m >? 2) && _is_leap y then 1 else 0).

Definition _ymd2ord (y m d : Z) : Z :=
  _days_before_year y + _days_before_month y m + d.

Definition toordinal (d : date) : Z := _ymd2ord (year d) (month d) (day d).

(** The range checks of the [date] constructor. *)
Definition check_date_fields (y m d : Z) : bool :=
  (1 <=? y) && (y <=? 9999) && (1 <=? m) && (m <=? 12)
  && (1 <=? d) && (d <=? _days_in_month y m).

Definition valid_date (d : date) : Prop :=
  check_date_fields (year d) (month d) (day d) = true.

(** A month and a day of that month, whatever the year. *)
Definition in_calendar (d : date) : Prop :=
  1 <= month d <= 12 /\ 1 <= day d <= _days_in_month (year d) (month d).

(** The next calendar day. *)
Definition tomorrow (d : date) : date :=
  if day d <? _days_in_month (year d) (month d)
  then mk_date (year d) (month d) (day d + 1)
  else if month d <? 12 then mk_date (year d) (month d + 1) 1
  else mk_date (year d + 1) 1 1.

(** [a < b] on dates: the comparison of the triples. *)
Definition date_ltb (a b : date) : bool :=
  (year a <? year b)
  || ((year a =? year b)
      && ((month a <? month b)
          || ((month a =? month b) && (day a <? day b)))).

Definition digit (c : ascii) : option Z :=
  let n := Z.of_N (N_of_ascii c) in
  if (48 <=? n) && (n <=? 57) then Some (n - 48) else None.

(** The directive [%Y]: four digits. *)
Definition strptime_Y (cs : list ascii) : option (Z * list ascii) :=
  match cs with
  | a :: b :: c :: d :: rest =>
      match digit a, digit b, digit c, digit d with
      | Some a, Some b, Some c, Some d =>
          Some (1000 * a + 100 * b + 10 * c + d, rest)
      | _, _, _, _ => None
      end
  | _ => None
  end.

(** One digit in [1-9]. *)
Definition nonzero_digit (cs : list ascii) : option (Z * list ascii) :=
  match cs with
  | a :: rest =>
      match digit a with
      | Some x => if 1 <=? x then Some (x, rest) else None
      | None => None
      end
  | [] => None
  end.

(** Two digits whose value lies in [lo .. hi]. *)
Definition two_digits (lo hi : Z) (cs : list ascii) : option (Z * list ascii) :=
  match cs with
  | a :: b :: rest =>
      match digit a, digit b with
      | Some x, Some y =>
          let v := 10 * x + y in
          if (lo <=? v) && (v <=? hi) then Some (v, rest) else None
      | _, _ => None
      end
  | _ => None
  end.

(** The directive [%m]: [1[0-2]|0[1-9]|[1-9]]. *)
Definition strptime_m (cs : list ascii) : option (Z * list ascii) :=
  match two_digits 1 12 cs with
  | Some r => Some r
  | None => nonzero_digit cs
  end.

(** The directive [%d]: [3[01]|[12]\d|0[1-9]|[1-9]| [1-9]]. *)
Definition strptime_d (cs : list ascii) : option (Z * list ascii) :=
  match two_digits 1 31 cs with
  | Some r => Some r
  | None =>
      match nonzero_digit cs with
      | Some r => Some r
      | None =>
          match cs with
          | " "%char :: rest => nonzero_digit rest
          | _ => None
          end
      end
  end.

(** [datetime.strptime(s, "%Y-%m-%d").date()], [None] standing for the
    [ValueError] of a text that does not match, of unconverted trailing text
    and of fields that are no date. *)
Definition strptime_ymd (s : string) : option date :=
  match strptime_Y (list_ascii_of_string s) with
  | Some (y, "-"%char :: r1) =>
      match strptime_m r1 with
      | Some (m, "-"%char :: r2) =>
          match strptime_d r2 with
          | Some (d, []) =>
              if check_date_fields y m d then Some (mk_date y m d) else None
          | _ => None
          end
      | _ => None
      end
  | _ => None
  end.

(** ** Records

    An employee and a leave request are dictionaries with a fixed set of
    keys: records. Such a dictionary is never empty, so the tests
    [if not emp] and [if not record] only ask whether the lookup found
    one. *)

Inductive Status := pending | approved | rejected | cancelled.

#[global] Instance Status_eq_dec : EqDecision Status.
Proof. solve_decision. Defined.

(** An entry of [EMPLOYEES]; the keys ["id"] and ["name"] are the fields
    [emp_id] and [emp_name]. *)
Record employee := mk_employee {
  emp_id : string;
  emp_name : string;
  department : string;
  role : string;
  email : string;
  manager_id : option string;
  leave_balance : gmap string Z
}.

(** An entry of [LEAVES]. *)
Record leave := mk_leave {
  leave_id : string;
  employee_id : string;
  employee_name : string;
  leave_type : string;
  start_date : string;
  end_date : string;
  days : Z;
  reason : string;
  status : Status;
  rejection_reason : option string;
  created_at : string;
  updated_at : string
}.

(** [record["status"] = st] *)
Definition set_status (st : Status) (r : leave) : leave :=
  mk_leave (leave_id r) (employee_id r) (employee_name r) (leave_type r)
    (start_date r) (end_date r) (days r) (reason r) st
    (rejection_reason r) (created_at r) (updated_at r).

(** [record["rejection_reason"] = why] *)
Definition set_rejection_reason (why : string) (r : leave) : leave :=
  mk_leave (leave_id r) (employee_id r) (employee_name r) (leave_type r)
    (start_date r) (end_date r) (days r) (reason r) (status r)
    (Some why) (created_at r) (updated_at r).

(** [record["updated_at"] = now] *)
Definition set_updated_at (now : string) (r : leave) : leave :=
  mk_leave (leave_id r) (employee_id r) (employee_name r) (leave_type r)
    (start_date r) (end_date r) (days r) (reason r) (status r)
    (rejection_reason r) (created_at r) now.

(** [emp["leave_balance"] = b] (the dictionary object after an item of it
    was assigned). *)
Definition set_leave_balance (b : gmap string Z) (e : employee) : employee :=
  mk_employee (emp_id e) (emp_name e) (department e) (role e) (email e)
    (manager_id e) b.

(** ** Insertion-ordered dictionaries *)

Section Dict.
Context {V : Type}.

(** [d.get(k)] *)
Fixpoint dict_get (k : string) (d : list (string * V)) : option V :=
  match d with
  | [] => None
  | (k', v) :: rest => if decide (k' = k) then Some v else dict_get k rest
  end.

(** [d[k] = v]: an existing key keeps its position, a new key goes last. *)
Fixpoint dict_set (k : string) (v : V) (d : list (string * V)) : list (string * V) :=
  match d with
  | [] => [(k, v)]
  | (k', v') :: rest =>
      if decide (k' = k) then (k, v) :: rest else (k', v') :: dict_set k v rest
  end.

(** [d.keys()] and [d.values()], in iteration order. *)
Definition dict_keys (d : list (string * V)) : list string := map fst d.
Definition dict_values (d : list (string * V)) : list V := map snd d.
End Dict.

(** ** The module state *)

Record db := mk_db {
  EMPLOYEES : gmap string employee;
  LEAVES : list (string * leave);
  _leave_counter : Z
}.

Definition VALID_LEAVE_TYPES : gset string :=
  {[ "casual"; "sick"; "annual"; "maternity"; "paternity" ]}.

Definition VALID_STATUSES : list Status := [pending; approved; rejected; cancelled].

Definition seed_employee (i n d r e : string) (m : option string)
    (casual sick annual maternity paternity : Z) : string * employee :=
  (i, mk_employee i n d r e m
        (list_to_map [("casual", casual); ("sick", sick); ("annual", annual);
                      ("maternity", maternity); ("paternity", paternity)])).

Definition EMPLOYEES_seed : gmap string employee :=
  list_to_map
    [ seed_employee "E001" "Alice Johnson" "Engineering" "Software Engineer"
        "alice.johnson@company.com" (Some "E003") 10 12 20 0 5;
      seed_employee "E002" "Bob Smith" "Marketing" "Marketing Analyst"
        "bob.smith@company.com" (Some "E004") 8 10 18 0 5;
      seed_employee "E003" "Carol Williams" "Engineering" "Engineering Manager"
        "carol.williams@company.com" None 10 12 25 90 0;
      seed_employee "E004" "David Brown" "HR" "HR Manager"
        "david.brown@company.com" None 10 12 22 0 5;
      seed_employee "E005" "Eva Martinez" "Finance" "Financial Analyst"
        "eva.martinez@company.com" (Some "E004") 9 11 19 90 0 ].

(** The state right after the module is imported. *)
Definition init : db := mk_db EMPLOYEES_seed [] 1.

(** ** Exceptions and the state monad *)

(** The exceptions the module raises. Each [ValueError] constructor stands
    for one message and carries the values the message interpolates, as the
    caller passed them. *)
Inductive error :=
| EmployeeNotFound (employee_id : string)
    (* Employee '{employee_id}' not found. *)
| InvalidLeaveType (leave_type : string)
    (* Invalid leave type '{leave_type}'. Valid types: ... *)
| BadDate (date_str : string)
    (* raised by strptime *)
| EndBeforeStart
    (* end_date must be on or after start_date *)
| Insufficient (leave_type : string) (days balance : Z)
    (* Insufficient {leave_type} leave balance. Requested: ..., Available: ... *)
| LeaveNotFound (leave_id : string)
    (* Leave request '{leave_id}' not found. *)
| NotPending (leave_id : string) (current : Status) (verb : Status)
    (* Leave '{leave_id}' is already '{status}'. Only pending leaves can be {verb}. *)
| NotCancellable (leave_id : string) (current : Status)
    (* Leave '{leave_id}' is '{status}' and cannot be cancelled. *)
| KeyError (key : string).

Inductive result (A : Type) :=
| Ok (a : A)
| Raise (e : error).
Arguments Ok {A} a.
Arguments Raise {A} e.

Definition M (A : Type) : Type := db -> result A * db.

#[global] Instance M_ret : MRet M := fun A a s => (Ok a, s).

#[global] Instance M_bind : MBind M := fun A B f c s =>
  match c s with
  | (Ok a, s') => f a s'
  | (Raise e, s') => (Raise e, s')
  end.

Definition raise {A : Type} (e : error) : M A := fun s => (Raise e, s).
Definition get : M db := fun s => (Ok s, s).
Definition put (s : db) : M unit := fun _ => (Ok tt, s).

(** A computation that raises or returns without touching the globals. *)
Definition lift {A : Type} (r : result A) : M A := fun s => (r, s).

(** ** Helper functions *)

(** The f-string [L{n:03d}]. *)
Definition format_id (n : Z) : string := String "L" (format_03d n).

Definition _new_leave_id : M string :=
  s ← get;
  let lid := format_id (_leave_counter s) in
  _ ← put (mk_db (EMPLOYEES s) (LEAVES s) (_leave_counter s + 1));
  mret lid.

Definition _parse_date (date_str : string) : result date :=
  match strptime_ymd date_str with
  | Some d => Ok d
  | None => Raise (BadDate date_str)
  end.

Definition _count_days (start end_ : string) : result Z :=
  match _parse_date start with
  | Raise e => Raise e
  | Ok s =>
      match _parse_date end_ with
      | Raise e => Raise e
      | Ok e =>
          if date_ltb e s then Raise EndBeforeStart
          else
            let delta := (toordinal e - toordinal s) + 1 in
            Ok delta
      end
  end.

(** [LEAVES[k] = r], also the effect of assigning to an item of the record
    object stored under [k]. *)
Definition store_leave (k : string) (r : leave) : M unit :=
  s ← get;
  put (mk_db (EMPLOYEES s) (dict_set k r (LEAVES s)) (_leave_counter s)).

(** [emp = EMPLOYEES[eid]; emp["leave_balance"][lt] = f(emp["leave_balance"][lt])]:
    the augmented assignments [-=] and [+=], with the [KeyError] of either
    subscript. *)
Definition update_balance (eid lt : string) (f : Z -> Z) : M unit :=
  s ← get;
  match EMPLOYEES s !! eid with
  | None => raise (KeyError eid)
  | Some emp =>
      match leave_balance emp !! lt with
      | None => raise (KeyError lt)
      | Some b =>
          put (mk_db
                 (<[eid := set_leave_balance (<[lt := f b]> (leave_balance emp)) emp]>
                    (EMPLOYEES s))
                 (LEAVES s) (_leave_counter s))
      end
  end.

(** ** Leave helpers *)

Definition create_leave (employee_id leave_type start_date end_date reason : string)
    (now1 now2 : string) : M leave :=
  s ← get;
  match EMPLOYEES s !! upper employee_id with
  | None => raise (EmployeeNotFound employee_id)
  | Some emp =>
      let leave_type := lower leave_type in
      if decide (leave_type ∈ VALID_LEAVE_TYPES) then
        days ← lift (_count_days start_date end_date);
        let balance := default 0 (leave_balance emp !! leave_type) in
        if days >? balance then raise (Insufficient leave_type days balance)
        else
          lid ← _new_leave_id;
          let record :=
            mk_leave lid (upper employee_id) (emp_name emp) leave_type
              start_date end_date days reason pending None now1 now2 in
          _ ← store_leave lid record;
          mret record
      else raise (InvalidLeaveType leave_type)
  end.

Definition get_leave (leave_id : string) (s : db) : option leave :=
  dict_get (upper leave_id) (LEAVES s).

Definition get_all_leaves (s : db) : list leave := dict_values (LEAVES s).

Definition get_pending_leaves (s : db) : list leave :=
  filter (fun l => status l = pending) (dict_values (LEAVES s)).

Definition get_employee_leaves (eid : string) (s : db) : list leave :=
  filter (fun l => employee_id l = upper eid) (dict_values (LEAVES s)).

Definition approve_leave_record (leave_id : string) (now : string) : M leave :=
  s ← get;
  match dict_get (upper leave_id) (LEAVES s) with
  | None => raise (LeaveNotFound leave_id)
  | Some record =>
      if decide (status record ≠ pending)
      then raise (NotPending leave_id (status record) approved)
      else
        (* Deduct from balance *)
        _ ← update_balance (employee_id record) (leave_type record)
              (fun b => b - days record);
        let record := set_updated_at now (set_status approved record) in
        _ ← store_leave (upper leave_id) record;
        mret record
  end.

Definition reject_leave_record (leave_id rejection_reason : string) (now : string)
    : M leave :=
  s ← get;
  match dict_get (upper leave_id) (LEAVES s) with
  | None => raise (LeaveNotFound leave_id)
  | Some record =>
      if decide (status record ≠ pending)
      then raise (NotPending leave_id (status record) rejected)
      else
        let record :=
          set_updated_at now
            (set_rejection_reason rejection_reason (set_status rejected record)) in
        _ ← store_leave (upper leave_id) record;
        mret record
  end.

Definition cancel_leave_record (leave_id : string) (now : string) : M leave :=
  s ← get;
  match dict_get (upper leave_id) (LEAVES s) with
  | None => raise (LeaveNotFound leave_id)
  | Some record =>
      if decide (status record = pending ∨ status record = approved)
      then
        (* Restore balance if it was approved *)
        _ ← (if decide (status record = approved)
             then update_balance (employee_id record) (leave_type record)
                    (fun b => b + days record)
             else mret tt);
        let record := set_updated_at now (set_status cancelled record) in
        _ ← store_leave (upper leave_id) record;
        mret record
      else raise (NotCancellable leave_id (status record))
  end.

(** ** Sequences of operations *)

(** One call of the core interface, with the clock readings it makes. *)
Inductive op :=
| Submit (employee_id leave_type start_date end_date reason now1 now2 : string)
| Approve (leave_id now : string)
| Reject (leave_id rejection_reason now : string)
| Cancel (leave_id now : string).

Definition perform (o : op) : M leave :=
  match o with
  | Submit e t a b r n1 n2 => create_leave e t a b r n1 n2
  | Approve l n => approve_leave_record l n
  | Reject l w n => reject_leave_record l w n
  | Cancel l n => cancel_leave_record l n
  end.

(** The globals after a call, whether it returned or raised. *)
Definition exec (s : db) (o : op) : db := snd (perform o s).

Definition run (os : list op) (s : db) : db := fold_left exec os s.

Inductive reachable : db -> Prop :=
| reachable_init : reachable init
| reachable_step s o : reachable s -> reachable (exec s o).

(** ** Observations used to state the properties *)

(** [EMPLOYEES[eid]["leave_balance"][lt]], when both keys exist. *)
Definition balance (s : db) (eid lt : string) : option Z :=
  match EMPLOYEES s !! eid with
  | Some emp => leave_balance emp !! lt
  | None => None
  end.

(** The sequence number written in a request id [L<digits>]. *)
Definition leave_number (lid : string) : option Z :=
  match lid with
  | String "L" (String c ds) =>
      match NilEmpty.uint_of_string (String c ds) with
      | Some d => Some (Z.of_N (N.of_uint d))
      | None => None
      end
  | _ => None
  end.

(** The error kinds of the specification, and the kind of each exception.
    A [KeyError] is none of them. *)
Inductive condition :=
| NotFound
| ValidationError
| InsufficientBalance
| InvalidTransition (current : Status)
| Uncaught.

Definition condition_of (e : error) : condition :=
  match e with
  | EmployeeNotFound _ | LeaveNotFound _ => NotFound
  | InvalidLeaveType _ | BadDate _ | EndBeforeStart => ValidationError
  | Insufficient _ _ _ => InsufficientBalance
  | NotPending _ st _ | NotCancellable _ st => InvalidTransition st
  | KeyError _ => Uncaught
  end.

(** The events of the life cycle and the transition table of the
    specification: the target status of each legal transition. *)
Inductive event := approve | reject | cancel.

Definition transition_table (st : Status) (ev : event) : option Status :=
  match st, ev with
  | pending, approve => Some approved
  | pending, reject => Some rejected
  | pending, cancel => Some cancelled
  | approved, cancel => Some cancelled
  | _, _ => None
  end.

(** The call that fires an event on a request. *)
Definition fire (ev : event) (lid why now : string) : M leave :=
  match ev with
  | approve => approve_leave_record lid now
  | reject => reject_leave_record lid why now
  | cancel => cancel_leave_record lid now
  end.

(** [a] was created before [b]: its id carries the smaller number. *)
Definition created_before (a b : leave) : Prop :=
  match leave_number (leave_id a), leave_number (leave_id b) with
  | Some i, Some j => i < j
  | _, _ => False
  end.

(** ** The invariant of the store *)

(** The ids [L001], [L002], ... of the first [n] requests. *)
Definition ids_upto (n : nat) : list string :=
  map (fun k => format_id (Z.of_nat k)) (seq 1 n).

Record wf (s : db) : Prop := mk_wf {
  wf_keys : dict_keys (LEAVES s) = ids_upto (length (LEAVES s));
  wf_counter : _leave_counter s = Z.of_nat (length (LEAVES s)) + 1;
  wf_records : forall k r, (k, r) ∈ LEAVES s ->
    leave_id r = k /\ 1 <= days r
    /\ is_Some (balance s (employee_id r) (leave_type r))
}.

(** ** Scenarios *)

(** One request, submitted and still pending. *)
Definition one_pending : list op :=
  [ Submit "E001" "annual" "2026-03-10" "2026-03-12" "trip" "t0" "t0" ].

(** One request, submitted and rejected. *)
Definition one_rejected : list op :=
  [ Submit "E001" "annual" "2026-03-10" "2026-03-12" "trip" "t0" "t0";
    Reject "L001" "project deadline" "t1" ].

(** Two requests of twenty days each against a balance of twenty days. *)
Definition two_pending : list op :=
  [ Submit "E001" "annual" "2026-03-01" "2026-03-20" "spring" "t0" "t0";
    Submit "E001" "annual" "2026-04-01" "2026-04-20" "easter" "t1" "t1" ].

(** ** Errors up to the spelling of the request id *)

(** The error [e] with the request id it quotes replaced by [lid]. *)
Definition respell (lid : string) (e : error) : error :=
  match e with
  | LeaveNotFound _ => LeaveNotFound lid
  | NotPending _ st verb => NotPending lid st verb
  | NotCancellable _ st => NotCancellable lid st
  | _ => e
  end.

Definition respell_outcome (lid : string) (out : result leave * db)
    : result leave * db :=
  match out with
  | (Raise e, s) => (Raise (respell lid e), s)
  | (Ok r, s) => (Ok r, s)
  end.

(** ** The steps of the store

    What one call that returned has done to the globals: the five ways in
    which the functions above assign to [LEAVES], [EMPLOYEES] and
    [_leave_counter]. *)

Inductive step (s : db) : db -> Prop :=
| step_submit emp eid lt sd ed why n1 n2 n :
    EMPLOYEES s !! upper eid = Some emp ->
    lower lt ∈ VALID_LEAVE_TYPES ->
    _count_days sd ed = Ok n ->
    n <= default 0 (leave_balance emp !! lower lt) ->
    step s
      (mk_db (EMPLOYEES s)
         (LEAVES s
          ++ [(format_id (_leave_counter s),
               mk_leave (format_id (_leave_counter s)) (upper eid) (emp_name emp)
                 (lower lt) sd ed n why pending None n1 n2)])
         (_leave_counter s + 1))
| step_approve k r emp b now :
    dict_get k (LEAVES s) = Some r -> status r = pending ->
    EMPLOYEES s !! employee_id r = Some emp ->
    leave_balance emp !! leave_type r = Some b ->
    step s
      (mk_db
         (<[employee_id r :=
              set_leave_balance (<[leave_type r := b - days r]> (leave_balance emp)) emp]>
            (EMPLOYEES s))
         (dict_set k (set_updated_at now (set_status approved r)) (LEAVES s))
         (_leave_counter s))
| step_reject k r why now :
    dict_get k (LEAVES s) = Some r -> status r = pending ->
    step s
      (mk_db (EMPLOYEES s)
         (dict_set k
            (set_updated_at now (set_rejection_reason why (set_status rejected r)))
            (LEAVES s))
         (_leave_counter s))
| step_cancel_pending k r now :
    dict_get k (LEAVES s) = Some r -> status r = pending ->
    step s
      (mk_db (EMPLOYEES s)
         (dict_set k (set_updated_at now (set_status cancelled r)) (LEAVES s))
         (_leave_counter s))
| step_cancel_approved k r emp b now :
    dict_get k (LEAVES s) = Some r -> status r = approved ->
    EMPLOYEES s !! employee_id r = Some emp ->
    leave_balance emp !! leave_type r = Some b ->
    step s
      (mk_db
         (<[employee_id r :=
              set_leave_balance (<[leave_type r := b + days r]> (leave_balance emp)) emp]>
            (EMPLOYEES s))
         (dict_set k (set_updated_at now (set_status cancelled r)) (LEAVES s))
         (_leave_counter s)).

(** ** The ledger *)

(** The days that request [r] holds against the balance of employee [e] and
    leave type [t]: its days while it is approved, nothing otherwise. *)
Definition debit_of (e t : string) (r : leave) : Z :=
  if decide (status r = approved /\ employee_id r = e /\ leave_type r = t)
  then days r else 0.

Fixpoint total (f : leave -> Z) (l : list leave) : Z :=
  match l with
  | [] => 0
  | r :: rest => f r + total f rest
  end.

(** The days of all approved requests of employee [e] and leave type [t]. *)
Definition approved_days (s : db) (e t : string) : Z :=
  total (debit_of e t) (get_all_leaves s).

(** The ledger is consistent: every balance is the seeded one less the
    approved days. *)
Definition ledger (s : db) : Prop :=
  forall e t,
    balance s e t = (fun b0 => b0 - approved_days s e t) <$> balance init e t.

(** ** What stays the same *)

(** The fields of a request that no function assigns after its creation. *)
Definition same_request (r r' : leave) : Prop :=
  leave_id r' = leave_id r /\ employee_id r' = employee_id r
  /\ employee_name r' = employee_name r /\ leave_type r' = leave_type r
  /\ start_date r' = start_date r /\ end_date r' = end_date r
  /\ days r' = days r /\ reason r' = reason r /\ created_at r' = created_at r.

(** One transition of the table. *)
Definition moves (a b : Status) : Prop :=
  exists ev, transition_table a ev = Some b.

(** The fields of an employee that no function assigns, and the leave types
    that have a balance entry. *)
Definition same_employee (e e0 : employee) : Prop :=
  emp_id e = emp_id e0 /\ emp_name e = emp_name e0
  /\ department e = department e0 /\ role e = role e0 /\ email e = email e0
  /\ manager_id e = manager_id e0
  /\ dom (leave_balance e) = dom (leave_balance e0).

Definition directory_static (s : db) : Prop :=
  forall k, option_Forall2 same_employee (EMPLOYEES s !! k) (EMPLOYEES_seed !! k).

(** A stored request is consistent with the seeded directory and with its
    own dates. *)
Definition record_ok (r : leave) : Prop :=
  (exists e0,
     EMPLOYEES_seed !! employee_id r = Some e0
     /\ employee_name r = emp_name e0
     /\ days r <= default 0 (leave_balance e0 !! leave_type r))
  /\ leave_type r ∈ VALID_LEAVE_TYPES
  /\ _count_days (start_date r) (end_date r) = Ok (days r)
  /\ (is_Some (rejection_reason r) <-> status r = rejected)
  /\ upper (employee_id r) = employee_id r
  /\ upper (leave_id r) = leave_id r.

Definition sound (s : db) : Prop :=
  ledger s /\ directory_static s
  /\ forall k r, (k, r) ∈ LEAVES s -> record_ok r.

(** The request that an operation addresses, as the key it looks up. *)
Definition target (o : op) : option string :=
  match o with
  | Submit _ _ _ _ _ _ _ => None
  | Approve l _ | Reject l _ _ | Cancel l _ => Some (upper l)
  end.


(** ** Employee helpers *)

(** [needle in hay] on strings. *)
Fixpoint contains (needle hay : string) : bool :=
  String.prefix needle hay
  || match hay with
     | EmptyString => false
     | String _ rest => contains needle rest
     end.

(** The keys of [EMPLOYEES] in the order of the dictionary literal, which is
    the iteration order of the dictionary: no function of the module adds or
    removes a key. *)
Definition EMPLOYEES_keys : list string := ["E001"; "E002"; "E003"; "E004"; "E005"].

(** [list(EMPLOYEES.values())] *)
Definition get_all_employees (s : db) : list employee :=
  omap (fun k => EMPLOYEES s !! k) EMPLOYEES_keys.

(** The loop [for emp in ...: if name_lower in emp["name"].lower(): return emp]. *)
Fixpoint first_by_name (name_lower : string) (emps : list employee) : option employee :=
  match emps with
  | [] => None
  | emp :: rest =>
      if contains name_lower (lower (emp_name emp)) then Some emp
      else first_by_name name_lower rest
  end.

(** [find_employee(employee_id, name)]; an argument is [None] or a string,
    and both [None] and the empty string are false. *)
Definition find_employee (employee_id name : option string) (s : db)
    : option employee :=
  match employee_id with
  | Some (String c i) => EMPLOYEES s !! upper (String c i)
  | _ =>
      match name with
      | Some (String c n) =>
          let name_lower := lower (String c n) in
          first_by_name name_lower (get_all_employees s)
      | _ => None
      end
  end.

(** ** Ids as text *)

(** [a < b] on strings: the comparison of Python, character by character. *)
Definition str_lt (a b : string) : Prop := String.compare a b = Lt.

Definition str_ltb (a b : string) : bool :=
  match String.compare a b with
  | Lt => true
  | _ => false
  end.

(** Every element is below every later element. *)
Fixpoint ascending (l : list string) : bool :=
  match l with
  | [] => true
  | x :: rest => forallb (str_ltb x) rest && ascending rest
  end.

(** ** Transitions as functions of the state *)





(** ** More scenarios *)

(** The request of [one_pending] as it is stored, by status. *)
Definition trip_request (st : Status) (why : option string) (updated : string)
    : leave :=
  mk_leave "L001" "E001" "Alice Johnson" "annual" "2026-03-10" "2026-03-12" 3
    "trip" st why "t0" updated.

(** One request, submitted and approved. *)
Definition one_approved : list op := one_pending ++ [Approve "L001" "t1"].

(** The second request of [two_pending] as it is stored. *)
Definition easter_request : leave :=
  mk_leave "L002" "E001" "Alice Johnson" "annual" "2026-04-01" "2026-04-20" 20
    "easter" pending None "t1" "t1".

(** * Properties *)

(** ** The calendar *)

Lemma div_100_400 (y : Z) : y / 100 = y / 4 / 25 /\ y / 400 = y / 4 / 25 / 4.
Proof. rewrite !Z.div_div by lia. split; reflexivity. Qed.

Lemma days_before_year_succ (y : Z) :
  _days_before_year (y + 1)
  = _days_before_year y + 365 + (if _is_leap y then 1 else 0).
Proof.
  unfold _days_before_year, _is_leap.
  replace (y + 1 - 1) with y by lia.
  destruct (div_100_400 y) as [Ha Hb], (div_100_400 (y - 1)) as [Hc Hd].
  destruct (Z.eqb_spec (y mod 4) 0), (Z.eqb_spec (y mod 100) 0),
    (Z.eqb_spec (y mod 400) 0); cbn [andb orb negb]; Z.div_mod_to_equations; lia.
Qed.

Lemma days_before_year_mono (y1 y2 : Z) :
  y1 <= y2 -> _days_before_year y1 <= _days_before_year y2.
Proof.
  unfold _days_before_year. intros H.
  destruct (div_100_400 (y1 - 1)) as [-> ->], (div_100_400 (y2 - 1)) as [-> ->].
  Z.div_mod_to_equations. lia.
Qed.

Lemma month_cases (m : Z) :
  1 <= m <= 12 ->
  m = 1 \/ m = 2 \/ m = 3 \/ m = 4 \/ m = 5 \/ m = 6 \/ m = 7 \/ m = 8
  \/ m = 9 \/ m = 10 \/ m = 11 \/ m = 12.
Proof. lia. Qed.

Ltac each_month m :=
  let H := fresh "Hm" in
  assert (H : 1 <= m <= 12) by lia;
  apply month_cases in H;
  repeat (destruct H as [H | H]); subst m.

Lemma days_before_month_succ (y m : Z) :
  1 <= m <= 11 ->
  _days_before_month y (m + 1) = _days_before_month y m + _days_in_month y m.
Proof.
  intros Hm. unfold _days_before_month, _days_in_month.
  each_month m; try lia; destruct (_is_leap y); simpl; lia.
Qed.

Lemma days_before_month_mono (y m1 m2 : Z) :
  1 <= m1 -> m1 <= m2 -> m2 <= 12 ->
  _days_before_month y m1 <= _days_before_month y m2.
Proof.
  intros H1 H2 H3. unfold _days_before_month.
  each_month m1; each_month m2; try lia; destruct (_is_leap y); simpl; lia.
Qed.

Lemma days_in_month_bounds (y m : Z) :
  1 <= m <= 12 -> 28 <= _days_in_month y m <= 31.
Proof.
  intros Hm. unfold _days_in_month.
  each_month m; destruct (_is_leap y); simpl; lia.
Qed.

Lemma days_before_december (y : Z) :
  _days_before_month y 12 + _days_in_month y 12
  = 365 + (if _is_leap y then 1 else 0).
Proof. unfold _days_before_month, _days_in_month. destruct (_is_leap y); simpl; lia. Qed.

Lemma valid_date_fields (d : date) :
  valid_date d ->
  1 <= year d <= 9999 /\ 1 <= month d <= 12
  /\ 1 <= day d <= _days_in_month (year d) (month d).
Proof.
  unfold valid_date, check_date_fields. rewrite !andb_true_iff, !Z.leb_le. lia.
Qed.

Lemma valid_in_calendar (d : date) : valid_date d -> in_calendar d.
Proof. intros H. apply valid_date_fields in H. unfold in_calendar. tauto. Qed.

Lemma date_ltb_lt (a b : date) :
  date_ltb a b = true <->
  year a < year b
  \/ (year a = year b
      /\ (month a < month b \/ (month a = month b /\ day a < day b))).
Proof.
  unfold date_ltb.
  rewrite !orb_true_iff, !andb_true_iff, !orb_true_iff, !andb_true_iff,
    !Z.ltb_lt, !Z.eqb_eq. reflexivity.
Qed.

Lemma days_before_january (y : Z) : _days_before_month y 1 = 0.
Proof. unfold _days_before_month. destruct (_is_leap y); reflexivity. Qed.

Lemma toordinal_bounds (d : date) :
  in_calendar d ->
  _days_before_year (year d) < toordinal d <= _days_before_year (year d + 1).
Proof.
  intros (Hm & Hd).
  unfold toordinal, _ymd2ord. rewrite days_before_year_succ.
  pose proof (days_before_month_mono (year d) 1 (month d)) as H1.
  rewrite days_before_january in H1.
  pose proof (days_before_december (year d)) as H3.
  pose proof (days_in_month_bounds (year d) 12) as H6.
  assert (Hcase : month d = 12 \/ month d <= 11) by lia.
  destruct Hcase as [H12 | H11].
  - rewrite H12 in *. lia.
  - pose proof (days_before_month_succ (year d) (month d)) as H4.
    pose proof (days_before_month_mono (year d) (month d + 1) 12) as H5.
    lia.
Qed.

Lemma toordinal_lt (a b : date) :
  in_calendar a -> in_calendar b ->
  date_ltb a b = true -> toordinal a < toordinal b.
Proof.
  intros Ha Hb Hlt. apply date_ltb_lt in Hlt.
  destruct Hlt as [Hy | [Hy [Hm | [Hm Hd]]]].
  - pose proof (toordinal_bounds a Ha). pose proof (toordinal_bounds b Hb).
    pose proof (days_before_year_mono (year a + 1) (year b)). lia.
  - destruct Ha as (Ha1 & Ha2), Hb as (Hb1 & Hb2).
    unfold toordinal, _ymd2ord. rewrite Hy in *.
    pose proof (days_before_month_succ (year b) (month a)).
    pose proof (days_before_month_mono (year b) (month a + 1) (month b)). lia.
  - unfold toordinal, _ymd2ord. rewrite Hy, Hm. lia.
Qed.

(** ** Request ids *)

Lemma uint_of_string_zeros (k : nat) (s : string) (d : Decimal.uint) :
  NilEmpty.uint_of_string s = Some d ->
  NilEmpty.uint_of_string (zeros k +:+ s) = Some (Nat.iter k Decimal.D0 d).
Proof.
  intros H. induction k as [|k IH]; simpl; [exact H|].
  rewrite IH. reflexivity.
Qed.

Lemma of_uint_leading_zeros (k : nat) (d : Decimal.uint) :
  N.of_uint (Nat.iter k Decimal.D0 d) = N.of_uint d.
Proof. induction k as [|k IH]; simpl; [reflexivity|exact IH]. Qed.

Lemma uint_of_zero_pad (w : nat) (n : N) :
  NilEmpty.uint_of_string (zero_pad w (decimal n))
  = Some (Nat.iter (w - String.length (decimal n)) Decimal.D0 (N.to_uint n)).
Proof. unfold zero_pad. apply uint_of_string_zeros, NilEmpty.usu. Qed.

Lemma decimal_nonempty (n : N) : decimal n <> EmptyString.
Proof.
  unfold decimal. intros H.
  assert (Hd : N.to_uint n = Decimal.Nil).
  { pose proof (NilEmpty.usu (N.to_uint n)) as Hu. rewrite H in Hu.
    simpl in Hu. congruence. }
  destruct n as [|p]; simpl in Hd; [discriminate|].
  exact (DecimalPos.Unsigned.to_uint_nonnil p Hd).
Qed.

Lemma zero_pad_nonempty (w : nat) (n : N) : zero_pad w (decimal n) <> EmptyString.
Proof.
  unfold zero_pad. pose proof (decimal_nonempty n) as Hn.
  destruct (w - String.length (decimal n))%nat; simpl; [exact Hn|discriminate].
Qed.

Lemma leave_number_format_id (n : Z) : 0 <= n -> leave_number (format_id n) = Some n.
Proof.
  intros Hn. unfold format_id, leave_number, format_03d.
  destruct (Z.ltb_spec n 0) as [Hneg|_]; [lia|].
  pose proof (zero_pad_nonempty 3 (Z.to_N n)) as Hne.
  pose proof (uint_of_zero_pad 3 (Z.to_N n)) as Hu.
  destruct (zero_pad 3 (decimal (Z.to_N n))) as [|c ds]; [congruence|].
  rewrite Hu, of_uint_leading_zeros, DecimalN.Unsigned.of_to.
  f_equal. lia.
Qed.

Lemma format_id_inj (a b : Z) : 0 <= a -> 0 <= b -> format_id a = format_id b -> a = b.
Proof.
  intros Ha Hb H. apply (f_equal leave_number) in H.
  rewrite !leave_number_format_id in H by assumption. congruence.
Qed.

Lemma upper_idem (s : string) : upper (upper s) = upper s.
Proof.
  induction s as [|c r IH]; simpl; [reflexivity|]. f_equal; [|exact IH].
  destruct c as [[] [] [] [] [] [] [] []]; vm_compute; reflexivity.
Qed.

(** ** Dictionaries *)

Section DictFacts.
Context {V : Type}.
Implicit Types (d : list (string * V)) (k : string) (v : V).

Lemma dict_get_set_eq k v d : dict_get k (dict_set k v d) = Some v.
Proof.
  induction d as [|[k' v'] d IH]; simpl.
  - rewrite decide_True; reflexivity.
  - destruct (decide (k' = k)) as [->|Hne]; simpl.
    + rewrite decide_True; reflexivity.
    + rewrite decide_False by assumption. exact IH.
Qed.

Lemma dict_get_set_ne k k' v d :
  k <> k' -> dict_get k' (dict_set k v d) = dict_get k' d.
Proof.
  intros Hne. induction d as [|[k0 v0] d IH]; simpl.
  - rewrite decide_False by assumption. reflexivity.
  - destruct (decide (k0 = k)) as [->|Hk]; simpl.
    + rewrite !decide_False by assumption. reflexivity.
    + destruct (decide (k0 = k')); [reflexivity|exact IH].
Qed.

Lemma dict_get_elem_of k v d : dict_get k d = Some v -> (k, v) ∈ d.
Proof.
  induction d as [|[k' v'] d IH]; simpl; [discriminate|].
  destruct (decide (k' = k)) as [->|Hne]; intros H.
  - injection H as ->. apply list_elem_of_here.
  - apply list_elem_of_further, IH, H.
Qed.

Lemma dict_get_None k d : dict_get k d = None <-> k ∉ dict_keys d.
Proof.
  unfold dict_keys. induction d as [|[k' v'] d IH]; simpl.
  - split; [intros _; apply not_elem_of_nil|reflexivity].
  - rewrite not_elem_of_cons. destruct (decide (k' = k)) as [->|Hne].
    + split; [discriminate|intros [H _]; contradiction].
    + rewrite IH. split; [intros H; split; [congruence|exact H]|intros [_ H]; exact H].
Qed.

(** Assigning to a key of the dictionary keeps the keys and their order. *)
Lemma dict_keys_set_present k v v0 d :
  dict_get k d = Some v0 -> dict_keys (dict_set k v d) = dict_keys d.
Proof.
  unfold dict_keys. induction d as [|[k' v'] d IH]; simpl; [discriminate|].
  destruct (decide (k' = k)) as [->|Hne]; simpl; intros H; [reflexivity|].
  f_equal. apply IH, H.
Qed.

(** Assigning to a new key appends it. *)
Lemma dict_set_fresh k v d : k ∉ dict_keys d -> dict_set k v d = d ++ [(k, v)].
Proof.
  unfold dict_keys. induction d as [|[k' v'] d IH]; simpl; [reflexivity|].
  rewrite not_elem_of_cons. intros [Hne Hk].
  rewrite decide_False by congruence. f_equal. apply IH, Hk.
Qed.

Lemma dict_set_elem_of k v k' v' d :
  (k', v') ∈ dict_set k v d -> (k', v') = (k, v) \/ (k', v') ∈ d.
Proof.
  induction d as [|[k0 v0] d IH]; simpl.
  - rewrite list_elem_of_singleton. auto.
  - destruct (decide (k0 = k)) as [->|Hne]; rewrite !elem_of_cons.
    + intros [H|H]; auto.
    + intros [H|H]; auto. destruct (IH H); auto.
Qed.

Lemma dict_set_length_present k v v0 d :
  dict_get k d = Some v0 -> length (dict_set k v d) = length d.
Proof.
  intros H. apply (dict_keys_set_present k v) in H.
  apply (f_equal length) in H. unfold dict_keys in H.
  rewrite !length_map in H. exact H.
Qed.
End DictFacts.

(** ** Day counting *)

Lemma strptime_ymd_valid (s : string) (d : date) :
  strptime_ymd s = Some d -> valid_date d.
Proof.
  unfold strptime_ymd, valid_date. intros H.
  repeat case_match; simplify_eq/=. assumption.
Qed.

Lemma date_ltb_false (a b : date) :
  date_ltb b a = false -> a = b \/ date_ltb a b = true.
Proof.
  intros H. destruct (date_ltb a b) eqn:Hab; [right; reflexivity|left].
  assert (Hn1 : ~ date_ltb b a = true) by congruence.
  assert (Hn2 : ~ date_ltb a b = true) by congruence.
  rewrite date_ltb_lt in Hn1, Hn2.
  destruct a as [ya ma da], b as [yb mb db]; simpl in *.
  assert (ya = yb) by lia. assert (ma = mb) by lia. assert (da = db) by lia.
  congruence.
Qed.

Lemma toordinal_le (a b : date) :
  in_calendar a -> in_calendar b ->
  date_ltb b a = false -> toordinal a <= toordinal b.
Proof.
  intros Ha Hb H. destruct (date_ltb_false a b H) as [->|Hlt]; [lia|].
  pose proof (toordinal_lt a b Ha Hb Hlt). lia.
Qed.

Lemma count_days_inv (start end_ : string) (n : Z) :
  _count_days start end_ = Ok n ->
  exists s e,
    strptime_ymd start = Some s /\ strptime_ymd end_ = Some e
    /\ date_ltb e s = false /\ n = toordinal e - toordinal s + 1.
Proof.
  unfold _count_days, _parse_date. intros H.
  repeat case_match; simplify_eq/=. eauto 10.
Qed.

Lemma count_days_positive (start end_ : string) (n : Z) :
  _count_days start end_ = Ok n -> 1 <= n.
Proof.
  intros H. apply count_days_inv in H. destruct H as (s & e & Hs & He & Hlt & ->).
  pose proof (toordinal_le s e
                (valid_in_calendar _ (strptime_ymd_valid _ _ Hs))
                (valid_in_calendar _ (strptime_ymd_valid _ _ He)) Hlt). lia.
Qed.

(** ** What a call that returned has done *)

Ltac unfold_M :=
  unfold store_leave, update_balance, _new_leave_id in *;
  unfold mbind, M_bind, mret, M_ret, get, put, raise, lift in *.

Lemma create_leave_inv eid lt sd ed why n1 n2 s r s' :
  create_leave eid lt sd ed why n1 n2 s = (Ok r, s') ->
  exists emp,
    EMPLOYEES s !! upper eid = Some emp
    /\ lower lt ∈ VALID_LEAVE_TYPES
    /\ _count_days sd ed = Ok (days r)
    /\ days r <= default 0 (leave_balance emp !! lower lt)
    /\ r = mk_leave (format_id (_leave_counter s)) (upper eid) (emp_name emp)
             (lower lt) sd ed (days r) why pending None n1 n2
    /\ s' = mk_db (EMPLOYEES s)
              (dict_set (format_id (_leave_counter s)) r (LEAVES s))
              (_leave_counter s + 1).
Proof.
  unfold create_leave. unfold_M. intros H.
  repeat case_match; simplify_eq/=.
  eexists. repeat split; eauto. lia.
Qed.

Lemma approve_inv lid now s r' s' :
  approve_leave_record lid now s = (Ok r', s') ->
  exists r emp b,
    dict_get (upper lid) (LEAVES s) = Some r /\ status r = pending
    /\ EMPLOYEES s !! employee_id r = Some emp
    /\ leave_balance emp !! leave_type r = Some b
    /\ r' = set_updated_at now (set_status approved r)
    /\ s' = mk_db
              (<[employee_id r :=
                   set_leave_balance
                     (<[leave_type r := b - days r]> (leave_balance emp)) emp]>
                 (EMPLOYEES s))
              (dict_set (upper lid) r' (LEAVES s)) (_leave_counter s).
Proof.
  unfold approve_leave_record. unfold_M. intros H.
  repeat case_match; simplify_eq/=.
  eexists _, _, _. repeat split; eauto. by apply dec_stable.
Qed.

Lemma reject_inv lid why now s r' s' :
  reject_leave_record lid why now s = (Ok r', s') ->
  exists r,
    dict_get (upper lid) (LEAVES s) = Some r /\ status r = pending
    /\ r' = set_updated_at now (set_rejection_reason why (set_status rejected r))
    /\ s' = mk_db (EMPLOYEES s) (dict_set (upper lid) r' (LEAVES s))
              (_leave_counter s).
Proof.
  unfold reject_leave_record. unfold_M. intros H.
  repeat case_match; simplify_eq/=.
  eexists. repeat split; eauto. by apply dec_stable.
Qed.

Lemma cancel_inv lid now s r' s' :
  cancel_leave_record lid now s = (Ok r', s') ->
  exists r,
    dict_get (upper lid) (LEAVES s) = Some r
    /\ r' = set_updated_at now (set_status cancelled r)
    /\ ((status r = pending
         /\ s' = mk_db (EMPLOYEES s) (dict_set (upper lid) r' (LEAVES s))
                   (_leave_counter s))
        \/ (status r = approved
            /\ exists emp b,
                 EMPLOYEES s !! employee_id r = Some emp
                 /\ leave_balance emp !! leave_type r = Some b
                 /\ s' = mk_db
                      (<[employee_id r :=
                           set_leave_balance
                             (<[leave_type r := b + days r]> (leave_balance emp)) emp]>
                         (EMPLOYEES s))
                      (dict_set (upper lid) r' (LEAVES s)) (_leave_counter s))).
Proof.
  unfold cancel_leave_record. unfold_M. intros H.
  repeat case_match; simplify_eq/=; eexists; repeat split; eauto.
  - right. split; [assumption|]. eauto.
  - left. split; [|reflexivity]. by destruct o.
Qed.

(** ** A call that raised has changed nothing *)

Lemma create_leave_raise eid lt sd ed why n1 n2 s e s' :
  create_leave eid lt sd ed why n1 n2 s = (Raise e, s') -> s' = s.
Proof.
  unfold create_leave. unfold_M. intros H.
  repeat case_match; simplify_eq/=; reflexivity.
Qed.

Lemma approve_raise lid now s e s' :
  approve_leave_record lid now s = (Raise e, s') -> s' = s.
Proof.
  unfold approve_leave_record. unfold_M. intros H.
  repeat case_match; simplify_eq/=; reflexivity.
Qed.

Lemma reject_raise lid why now s e s' :
  reject_leave_record lid why now s = (Raise e, s') -> s' = s.
Proof.
  unfold reject_leave_record. unfold_M. intros H.
  repeat case_match; simplify_eq/=; reflexivity.
Qed.

Lemma cancel_raise lid now s e s' :
  cancel_leave_record lid now s = (Raise e, s') -> s' = s.
Proof.
  unfold cancel_leave_record. unfold_M. intros H.
  repeat case_match; simplify_eq/=; reflexivity.
Qed.

Lemma perform_raise o s e s' : perform o s = (Raise e, s') -> s' = s.
Proof.
  destruct o; simpl; eauto using create_leave_raise, approve_raise,
    reject_raise, cancel_raise.
Qed.

(** ** Balances after an assignment *)

Lemma balance_assign (E : gmap string employee) L c L' c' eid lt emp v e t :
  E !! eid = Some emp ->
  balance
    (mk_db (<[eid := set_leave_balance (<[lt := v]> (leave_balance emp)) emp]> E) L' c')
    e t
  = if decide (e = eid /\ t = lt) then Some v else balance (mk_db E L c) e t.
Proof.
  intros He. unfold balance; simpl.
  destruct (decide (e = eid)) as [->|Hne].
  - rewrite lookup_insert_eq, He. simpl.
    destruct (decide (t = lt)) as [->|Hlt].
    + rewrite decide_True by auto. apply lookup_insert_eq.
    + rewrite decide_False by tauto. apply lookup_insert_ne. congruence.
  - rewrite lookup_insert_ne by congruence.
    rewrite decide_False by tauto. reflexivity.
Qed.

Lemma balance_assign_is_Some (E : gmap string employee) L c L' c' eid lt emp v e t :
  E !! eid = Some emp ->
  is_Some (balance (mk_db E L c) e t) ->
  is_Some
    (balance
       (mk_db (<[eid := set_leave_balance (<[lt := v]> (leave_balance emp)) emp]> E)
          L' c') e t).
Proof.
  intros He Hs. rewrite (balance_assign E L c L' c') by exact He.
  case_decide; [eexists; reflexivity|exact Hs].
Qed.

Lemma balance_same_employees s L c e t :
  balance (mk_db (EMPLOYEES s) L c) e t = balance s e t.
Proof. reflexivity. Qed.

(** ** The invariant holds in every reachable state *)

Lemma ids_upto_S (n : nat) :
  ids_upto (S n) = ids_upto n ++ [format_id (Z.of_nat (S n))].
Proof. unfold ids_upto. rewrite seq_S, map_app. reflexivity. Qed.

Lemma ids_upto_fresh (n : nat) : format_id (Z.of_nat (S n)) ∉ ids_upto n.
Proof.
  unfold ids_upto. rewrite list_elem_of_fmap. intros (k & Heq & Hin).
  apply format_id_inj in Heq; [|lia..].
  apply elem_of_seq in Hin. lia.
Qed.

Lemma wf_init : wf init.
Proof.
  split; simpl; [reflexivity|reflexivity|].
  intros k r H. by apply elem_of_nil in H.
Qed.

Lemma wf_set_present s k r r' E' :
  wf s ->
  dict_get k (LEAVES s) = Some r ->
  leave_id r' = leave_id r -> days r' = days r ->
  employee_id r' = employee_id r -> leave_type r' = leave_type r ->
  (forall e t, is_Some (balance s e t) ->
               is_Some (balance (mk_db E' (dict_set k r' (LEAVES s)) (_leave_counter s)) e t)) ->
  wf (mk_db E' (dict_set k r' (LEAVES s)) (_leave_counter s)).
Proof.
  intros [Hk Hc Hr] Hget Hid Hdays Heid Hlt Hbal.
  pose proof (dict_set_length_present k r' r _ Hget) as Hlen.
  split; simpl.
  - rewrite Hlen, (dict_keys_set_present k r' r) by exact Hget. exact Hk.
  - rewrite Hlen. exact Hc.
  - intros k0 r0 Hin. apply dict_set_elem_of in Hin. destruct Hin as [Heq|Hin].
    + injection Heq as -> ->.
      destruct (Hr k r (dict_get_elem_of _ _ _ Hget)) as (H1 & H2 & H3).
      rewrite Hid, Hdays, Heid, Hlt. auto.
    + destruct (Hr k0 r0 Hin) as (H1 & H2 & H3). auto.
Qed.

Lemma wf_create eid lt sd ed why n1 n2 s r s' :
  wf s -> create_leave eid lt sd ed why n1 n2 s = (Ok r, s') -> wf s'.
Proof.
  intros [Hk Hc Hr] H. apply create_leave_inv in H.
  destruct H as (emp & Hemp & Hlt & Hdays & Hle & Hrec & ->).
  set (n := length (LEAVES s)) in *.
  assert (Hkey : format_id (_leave_counter s) = format_id (Z.of_nat (S n)))
    by (f_equal; lia).
  assert (Hfresh : format_id (_leave_counter s) ∉ dict_keys (LEAVES s)).
  { rewrite Hk, Hkey. apply ids_upto_fresh. }
  rewrite (dict_set_fresh _ _ _ Hfresh).
  split; simpl.
  - unfold dict_keys. rewrite map_app, length_app. simpl.
    replace (length (LEAVES s) + 1)%nat with (S n) by (unfold n; lia).
    rewrite ids_upto_S. fold (dict_keys (LEAVES s)). rewrite Hk, Hkey. reflexivity.
  - rewrite length_app. simpl. lia.
  - intros k0 r0 Hin. apply elem_of_app in Hin. destruct Hin as [Hin|Hin].
    + apply (Hr k0 r0 Hin).
    + apply list_elem_of_singleton in Hin. injection Hin as -> ->.
      pose proof (count_days_positive _ _ _ Hdays) as Hpos.
      rewrite Hrec at 1. simpl. repeat split; [lia|].
      rewrite Hrec. unfold balance. simpl. rewrite Hemp.
      destruct (leave_balance emp !! lower lt) as [b|]; [eexists; reflexivity|].
      simpl in Hle. lia.
Qed.

Lemma wf_approve lid now s r s' :
  wf s -> approve_leave_record lid now s = (Ok r, s') -> wf s'.
Proof.
  intros Hwf H. apply approve_inv in H.
  destruct H as (r0 & emp & b & Hget & Hst & Hemp & Hb & -> & ->).
  apply (wf_set_present s _ r0); auto.
  intros e t. destruct s as [E L c]. apply balance_assign_is_Some, Hemp.
Qed.

Lemma wf_reject lid why now s r s' :
  wf s -> reject_leave_record lid why now s = (Ok r, s') -> wf s'.
Proof.
  intros Hwf H. apply reject_inv in H.
  destruct H as (r0 & Hget & Hst & -> & ->).
  apply (wf_set_present s _ r0); auto.
Qed.

Lemma wf_cancel lid now s r s' :
  wf s -> cancel_leave_record lid now s = (Ok r, s') -> wf s'.
Proof.
  intros Hwf H. apply cancel_inv in H.
  destruct H as (r0 & Hget & -> & [[Hst ->] | (Hst & emp & b & Hemp & Hb & ->)]).
  - apply (wf_set_present s _ r0); auto.
  - apply (wf_set_present s _ r0); auto.
    intros e t. destruct s as [E L c]. apply balance_assign_is_Some, Hemp.
Qed.

Lemma wf_exec s o : wf s -> wf (exec s o).
Proof.
  intros Hwf. unfold exec. destruct (perform o s) as [[r|e] s'] eqn:H; simpl.
  - destruct o; simpl in H;
      eauto using wf_create, wf_approve, wf_reject, wf_cancel.
  - apply perform_raise in H. by subst.
Qed.

Lemma reachable_wf s : reachable s -> wf s.
Proof. induction 1; auto using wf_init, wf_exec. Qed.

Lemma reachable_run os s : reachable s -> reachable (run os s).
Proof.
  revert s. induction os as [|o os IH]; intros s H; simpl; [exact H|].
  apply IH. by constructor.
Qed.

(** ** What each call does, by the status of the request *)

Lemma approve_pending lid now s r emp b :
  dict_get (upper lid) (LEAVES s) = Some r -> status r = pending ->
  EMPLOYEES s !! employee_id r = Some emp ->
  leave_balance emp !! leave_type r = Some b ->
  approve_leave_record lid now s
  = (Ok (set_updated_at now (set_status approved r)),
     mk_db
       (<[employee_id r :=
            set_leave_balance (<[leave_type r := b - days r]> (leave_balance emp)) emp]>
          (EMPLOYEES s))
       (dict_set (upper lid) (set_updated_at now (set_status approved r)) (LEAVES s))
       (_leave_counter s)).
Proof.
  intros Hget Hst Hemp Hb. unfold approve_leave_record. unfold_M.
  rewrite Hget, Hst. simpl. rewrite Hemp, Hb. reflexivity.
Qed.

Lemma approve_not_pending lid now s r :
  dict_get (upper lid) (LEAVES s) = Some r -> status r <> pending ->
  approve_leave_record lid now s
  = (Raise (NotPending lid (status r) approved), s).
Proof.
  intros Hget Hst. unfold approve_leave_record. unfold_M.
  rewrite Hget. rewrite decide_True by exact Hst. reflexivity.
Qed.

Lemma reject_pending lid why now s r :
  dict_get (upper lid) (LEAVES s) = Some r -> status r = pending ->
  reject_leave_record lid why now s
  = (Ok (set_updated_at now (set_rejection_reason why (set_status rejected r))),
     mk_db (EMPLOYEES s)
       (dict_set (upper lid)
          (set_updated_at now (set_rejection_reason why (set_status rejected r)))
          (LEAVES s))
       (_leave_counter s)).
Proof.
  intros Hget Hst. unfold reject_leave_record. unfold_M.
  rewrite Hget, Hst. reflexivity.
Qed.

Lemma reject_not_pending lid why now s r :
  dict_get (upper lid) (LEAVES s) = Some r -> status r <> pending ->
  reject_leave_record lid why now s
  = (Raise (NotPending lid (status r) rejected), s).
Proof.
  intros Hget Hst. unfold reject_leave_record. unfold_M.
  rewrite Hget. rewrite decide_True by exact Hst. reflexivity.
Qed.

Lemma cancel_pending lid now s r :
  dict_get (upper lid) (LEAVES s) = Some r -> status r = pending ->
  cancel_leave_record lid now s
  = (Ok (set_updated_at now (set_status cancelled r)),
     mk_db (EMPLOYEES s)
       (dict_set (upper lid) (set_updated_at now (set_status cancelled r)) (LEAVES s))
       (_leave_counter s)).
Proof.
  intros Hget Hst. unfold cancel_leave_record. unfold_M.
  rewrite Hget, Hst. reflexivity.
Qed.

Lemma cancel_approved lid now s r emp b :
  dict_get (upper lid) (LEAVES s) = Some r -> status r = approved ->
  EMPLOYEES s !! employee_id r = Some emp ->
  leave_balance emp !! leave_type r = Some b ->
  cancel_leave_record lid now s
  = (Ok (set_updated_at now (set_status cancelled r)),
     mk_db
       (<[employee_id r :=
            set_leave_balance (<[leave_type r := b + days r]> (leave_balance emp)) emp]>
          (EMPLOYEES s))
       (dict_set (upper lid) (set_updated_at now (set_status cancelled r)) (LEAVES s))
       (_leave_counter s)).
Proof.
  intros Hget Hst Hemp Hb. unfold cancel_leave_record. unfold_M.
  rewrite Hget, Hst. simpl. rewrite Hemp, Hb. reflexivity.
Qed.

Lemma cancel_decided lid now s r :
  dict_get (upper lid) (LEAVES s) = Some r ->
  status r = rejected \/ status r = cancelled ->
  cancel_leave_record lid now s
  = (Raise (NotCancellable lid (status r)), s).
Proof.
  intros Hget Hst. unfold cancel_leave_record. unfold_M.
  rewrite Hget. rewrite decide_False; [reflexivity|].
  destruct Hst as [-> | ->]; intros [?|?]; discriminate.
Qed.

(** A stored request names an employee and a leave type that have a
    balance entry, so the subscripts of approval and cancellation succeed. *)
Lemma wf_stored_balance s k r :
  wf s -> dict_get k (LEAVES s) = Some r ->
  exists emp b,
    EMPLOYEES s !! employee_id r = Some emp
    /\ leave_balance emp !! leave_type r = Some b.
Proof.
  intros Hwf Hget. apply dict_get_elem_of in Hget.
  destruct (wf_records s Hwf k r Hget) as (_ & _ & [b Hb]).
  unfold balance in Hb.
  destruct (EMPLOYEES s !! employee_id r) as [emp|] eqn:Hemp; [|discriminate].
  eauto.
Qed.

Lemma set_leave_balance_same emp : set_leave_balance (leave_balance emp) emp = emp.
Proof. destruct emp; reflexivity. Qed.

(** * The request life cycle *)

(** C2. In every state reached by a sequence of calls, and for every stored
    request: an event that the transition table allows from the request's
    status succeeds and leaves the request in the table's target status; any
    other event raises the invalid-transition error that names the current
    status, and the globals (requests and balances) are what they were. *)
Theorem C2_transition_closure (os : list op) (ev : event) (lid why now : string)
    (r : leave) :
  get_leave lid (run os init) = Some r ->
  match transition_table (status r) ev with
  | Some st' =>
      exists r' s',
        fire ev lid why now (run os init) = (Ok r', s')
        /\ status r' = st' /\ get_leave lid s' = Some r'
  | None =>
      exists e,
        fire ev lid why now (run os init) = (Raise e, run os init)
        /\ condition_of e = InvalidTransition (status r)
  end.
Proof.
  pose proof (reachable_wf _ (reachable_run os init reachable_init)) as Hwf.
  generalize dependent (run os init). intros s Hwf Hget. unfold get_leave in Hget.
  destruct (wf_stored_balance s _ r Hwf Hget) as (emp & b & Hemp & Hb).
  destruct (status r) eqn:Hst, ev; simpl.
  - rewrite (approve_pending lid now s r emp b) by assumption.
    eexists _, _. split; [reflexivity|]. split; [reflexivity|].
    unfold get_leave; simpl. apply dict_get_set_eq.
  - rewrite (reject_pending lid why now s r) by assumption.
    eexists _, _. split; [reflexivity|]. split; [reflexivity|].
    unfold get_leave; simpl. apply dict_get_set_eq.
  - rewrite (cancel_pending lid now s r) by assumption.
    eexists _, _. split; [reflexivity|]. split; [reflexivity|].
    unfold get_leave; simpl. apply dict_get_set_eq.
  - rewrite (approve_not_pending lid now s r) by congruence.
    eexists. split; [reflexivity|]. simpl. by rewrite Hst.
  - rewrite (reject_not_pending lid why now s r) by congruence.
    eexists. split; [reflexivity|]. simpl. by rewrite Hst.
  - rewrite (cancel_approved lid now s r emp b) by assumption.
    eexists _, _. split; [reflexivity|]. split; [reflexivity|].
    unfold get_leave; simpl. apply dict_get_set_eq.
  - rewrite (approve_not_pending lid now s r) by congruence.
    eexists. split; [reflexivity|]. simpl. by rewrite Hst.
  - rewrite (reject_not_pending lid why now s r) by congruence.
    eexists. split; [reflexivity|]. simpl. by rewrite Hst.
  - rewrite (cancel_decided lid now s r) by auto.
    eexists. split; [reflexivity|]. simpl. by rewrite Hst.
  - rewrite (approve_not_pending lid now s r) by congruence.
    eexists. split; [reflexivity|]. simpl. by rewrite Hst.
  - rewrite (reject_not_pending lid why now s r) by congruence.
    eexists. split; [reflexivity|]. simpl. by rewrite Hst.
  - rewrite (cancel_decided lid now s r) by auto.
    eexists. split; [reflexivity|]. simpl. by rewrite Hst.
Qed.

Lemma C2_transition_closure_witness :
  exists e,
    fire approve "l001" "" "t2" (run one_rejected init)
    = (Raise e, run one_rejected init)
    /\ condition_of e = InvalidTransition rejected.
Proof.
  apply (C2_transition_closure one_rejected approve "l001" "" "t2"
           (mk_leave "L001" "E001" "Alice Johnson" "annual" "2026-03-10"
              "2026-03-12" 3 "trip" rejected (Some "project deadline") "t0" "t1")).
  vm_compute. reflexivity.
Defined.

(** C3. Approving a pending request of a reachable state debits its days
    from the balance of its employee and leave type, and from no other; a
    second approval of the same id raises the invalid-transition error that
    names [approved] and leaves the state, hence every balance, as the first
    approval left it. *)
Theorem C3_no_double_debit (os : list op) (lid now now' : string) (r : leave) :
  get_leave lid (run os init) = Some r ->
  status r = pending ->
  exists r1 s1 b,
    approve_leave_record lid now (run os init) = (Ok r1, s1)
    /\ balance (run os init) (employee_id r) (leave_type r) = Some b
    /\ balance s1 (employee_id r) (leave_type r) = Some (b - days r)
    /\ (forall e t, ~ (e = employee_id r /\ t = leave_type r) ->
                    balance s1 e t = balance (run os init) e t)
    /\ exists e,
         approve_leave_record lid now' s1 = (Raise e, s1)
         /\ condition_of e = InvalidTransition approved.
Proof.
  pose proof (reachable_wf _ (reachable_run os init reachable_init)) as Hwf.
  generalize dependent (run os init). intros s Hwf Hget Hst. unfold get_leave in Hget.
  destruct (wf_stored_balance s _ r Hwf Hget) as (emp & b & Hemp & Hb).
  rewrite (approve_pending lid now s r emp b) by assumption.
  eexists _, _, b. split; [reflexivity|].
  destruct s as [E L c]; simpl in *.
  split; [unfold balance; simpl; by rewrite Hemp|].
  split; [rewrite (balance_assign E L c) by exact Hemp; by rewrite decide_True|].
  split.
  - intros e t Hne. rewrite (balance_assign E L c) by exact Hemp.
    by rewrite decide_False.
  - eexists. rewrite (approve_not_pending lid now' _ (set_updated_at now (set_status approved r))).
    + split; reflexivity.
    + simpl. apply dict_get_set_eq.
    + discriminate.
Qed.

Lemma C3_no_double_debit_witness :
  exists r1 s1 b,
    approve_leave_record "L001" "t1" (run one_pending init) = (Ok r1, s1)
    /\ balance (run one_pending init) "E001" "annual" = Some b
    /\ balance s1 "E001" "annual" = Some (b - 3)
    /\ (forall e t, ~ (e = "E001" /\ t = "annual") ->
                    balance s1 e t = balance (run one_pending init) e t)
    /\ exists e,
         approve_leave_record "L001" "t2" s1 = (Raise e, s1)
         /\ condition_of e = InvalidTransition approved.
Proof.
  apply (C3_no_double_debit one_pending "L001" "t1" "t2"
           (mk_leave "L001" "E001" "Alice Johnson" "annual" "2026-03-10"
              "2026-03-12" 3 "trip" pending None "t0" "t0")).
  - vm_compute. reflexivity.
  - reflexivity.
Defined.

(** C4. Approving a pending request of a reachable state and then
    cancelling it succeeds twice and restores the employee table, hence the
    balance of every employee and leave type, to what it was before the
    approval. *)
Theorem C4_approve_then_cancel (os : list op) (lid now now' : string) (r : leave) :
  get_leave lid (run os init) = Some r ->
  status r = pending ->
  exists r1 s1 r2 s2,
    approve_leave_record lid now (run os init) = (Ok r1, s1)
    /\ cancel_leave_record lid now' s1 = (Ok r2, s2)
    /\ status r2 = cancelled
    /\ EMPLOYEES s2 = EMPLOYEES (run os init)
    /\ forall e t, balance s2 e t = balance (run os init) e t.
Proof.
  pose proof (reachable_wf _ (reachable_run os init reachable_init)) as Hwf.
  generalize dependent (run os init). intros s Hwf Hget Hst. unfold get_leave in Hget.
  destruct (wf_stored_balance s _ r Hwf Hget) as (emp & b & Hemp & Hb).
  rewrite (approve_pending lid now s r emp b) by assumption.
  eexists _, _, _, _. split; [reflexivity|].
  split.
  { apply (cancel_approved lid now' _ (set_updated_at now (set_status approved r))
             (set_leave_balance (<[leave_type r := b - days r]> (leave_balance emp)) emp)
             (b - days r));
      [ simpl; apply dict_get_set_eq | reflexivity
      | simpl; apply lookup_insert_eq | simpl; apply lookup_insert_eq ]. }
  split; [reflexivity|].
  assert (HE : forall E' : gmap string employee, E' = EMPLOYEES s ->
                 forall L c e t, balance (mk_db E' L c) e t = balance s e t)
    by (intros E' -> L c e t; reflexivity).
  simpl.
  assert (Heq :
    <[employee_id r :=
        set_leave_balance
          (<[leave_type r := b - days r + days r]>
             (<[leave_type r := b - days r]> (leave_balance emp)))
          (set_leave_balance (<[leave_type r := b - days r]> (leave_balance emp)) emp)]>
      (<[employee_id r :=
           set_leave_balance (<[leave_type r := b - days r]> (leave_balance emp)) emp]>
         (EMPLOYEES s))
    = EMPLOYEES s).
  { rewrite insert_insert_eq.
    replace (b - days r + days r) with b by lia.
    rewrite insert_insert_eq, (insert_id (leave_balance emp)) by exact Hb.
    unfold set_leave_balance at 1. simpl.
    fold (set_leave_balance (leave_balance emp) emp).
    rewrite set_leave_balance_same. apply insert_id, Hemp. }
  split; [exact Heq|]. intros e t. apply HE, Heq.
Qed.

Lemma C4_approve_then_cancel_witness :
  exists r1 s1 r2 s2,
    approve_leave_record "L001" "t1" (run one_pending init) = (Ok r1, s1)
    /\ cancel_leave_record "L001" "t2" s1 = (Ok r2, s2)
    /\ status r2 = cancelled
    /\ EMPLOYEES s2 = EMPLOYEES (run one_pending init)
    /\ forall e t, balance s2 e t = balance (run one_pending init) e t.
Proof.
  apply (C4_approve_then_cancel one_pending "L001" "t1" "t2"
           (mk_leave "L001" "E001" "Alice Johnson" "annual" "2026-03-10"
              "2026-03-12" 3 "trip" pending None "t0" "t0")).
  - vm_compute. reflexivity.
  - reflexivity.
Defined.

(** C5. Every call is all or nothing. A call that raises leaves the globals
    exactly as they were: a failed submission stores no record and advances
    no counter, a failed approval debits nothing and leaves the request as it
    was, and likewise for rejection and cancellation. A call that returns has
    done all of its work: the returned record is the stored one; a
    submission stored it pending under the next id, advanced the counter and
    touched no balance; an approval of a pending request stored it approved
    and debited its days. *)
Theorem C5_all_or_nothing (o : op) (s s' : db) :
  (forall e, perform o s = (Raise e, s') -> s' = s)
  /\ (forall r, perform o s = (Ok r, s') ->
        match o with
        | Submit _ _ _ _ _ _ _ =>
            dict_get (format_id (_leave_counter s)) (LEAVES s') = Some r
            /\ leave_id r = format_id (_leave_counter s)
            /\ status r = pending
            /\ _leave_counter s' = _leave_counter s + 1
            /\ EMPLOYEES s' = EMPLOYEES s
        | Approve lid _ =>
            get_leave lid s' = Some r /\ status r = approved
            /\ exists r0 b,
                 get_leave lid s = Some r0 /\ status r0 = pending
                 /\ days r = days r0
                 /\ balance s (employee_id r) (leave_type r) = Some b
                 /\ balance s' (employee_id r) (leave_type r) = Some (b - days r)
        | Reject lid why _ =>
            get_leave lid s' = Some r /\ status r = rejected
            /\ rejection_reason r = Some why /\ EMPLOYEES s' = EMPLOYEES s
        | Cancel lid _ =>
            get_leave lid s' = Some r /\ status r = cancelled
        end).
Proof.
  split; [intros e; apply perform_raise|].
  intros r H. destruct o as [eid lt sd ed why n1 n2|lid now|lid why now|lid now];
    simpl in H.
  - apply create_leave_inv in H. destruct H as (emp & _ & _ & _ & _ & Hr & ->).
    simpl. split; [apply dict_get_set_eq|]. rewrite Hr. simpl. auto.
  - apply approve_inv in H.
    destruct H as (r0 & emp & b & Hget & Hst & Hemp & Hb & -> & ->).
    unfold get_leave. simpl. split; [apply dict_get_set_eq|]. split; [reflexivity|].
    exists r0, b. repeat split; try assumption.
    + unfold balance. by rewrite Hemp.
    + destruct s as [E L c]. simpl in *.
      rewrite (balance_assign E L c) by exact Hemp. by rewrite decide_True.
  - apply reject_inv in H. destruct H as (r0 & Hget & Hst & -> & ->).
    unfold get_leave. simpl. split; [apply dict_get_set_eq|]. auto.
  - apply cancel_inv in H.
    destruct H as (r0 & Hget & -> & [[_ ->] | (_ & emp & b & _ & _ & ->)]);
      unfold get_leave; simpl; (split; [apply dict_get_set_eq|reflexivity]).
Qed.

(** Scenario: 25 days of annual leave against a balance of 20 is refused
    and nothing is stored. *)
Lemma C5_all_or_nothing_witness :
  snd (perform (Submit "E001" "annual" "2026-03-01" "2026-03-25" "trip" "t0" "t0") init)
  = init.
Proof.
  apply (proj1
           (C5_all_or_nothing
              (Submit "E001" "annual" "2026-03-01" "2026-03-25" "trip" "t0" "t0")
              init _)
           (Insufficient "annual" 25 20)).
  vm_compute. reflexivity.
Defined.

(** C1, at the input on which it fails. Alice has 20 days of annual leave;
    two requests of 20 days each pass the balance check of submission, since
    a pending request reserves nothing; both approvals then return, none
    raises an insufficient-balance error, and her annual balance is -20. *)
Theorem C1_balance_goes_negative :
  balance (run two_pending init) "E001" "annual" = Some 20
  /\ exists r1 s1 r2 s2,
       approve_leave_record "L001" "t2" (run two_pending init) = (Ok r1, s1)
       /\ approve_leave_record "L002" "t3" s1 = (Ok r2, s2)
       /\ days r1 = 20 /\ days r2 = 20
       /\ balance s1 "E001" "annual" = Some 0
       /\ balance s2 "E001" "annual" = Some (-20).
Proof.
  split; [vm_compute; reflexivity|].
  destruct (approve_leave_record "L001" "t2" (run two_pending init))
    as [[r1|e1] s1] eqn:H1; [|vm_compute in H1; discriminate].
  destruct (approve_leave_record "L002" "t3" s1)
    as [[r2|e2] s2] eqn:H2;
    [|vm_compute in H1; injection H1 as <- <-; vm_compute in H2; discriminate].
  exists r1, s1, r2, s2. split; [reflexivity|]. split; [exact H2|].
  vm_compute in H1. injection H1 as <- <-.
  vm_compute in H2. injection H2 as <- <-.
  repeat split; vm_compute; reflexivity.
Qed.

(** * Submission *)

(** C6. Submission checks, in this order and stopping at the first failure:
    the employee, the leave type, the dates (each must parse, and the end
    must not precede the start), the balance. An unknown employee is reported
    whatever the other arguments are, an invalid leave type whatever the
    dates and the balance are, an inverted span whatever the balance is; when
    all four checks pass the request is returned, pending. The four errors
    are pairwise different, and every failure leaves the state as it was. *)
Theorem C6_validation_order (eid lt sd ed why n1 n2 : string) (s : db) :
  let out := create_leave eid lt sd ed why n1 n2 s in
  (EMPLOYEES s !! upper eid = None -> out = (Raise (EmployeeNotFound eid), s))
  /\ (forall emp, EMPLOYEES s !! upper eid = Some emp ->
        (lower lt ∉ VALID_LEAVE_TYPES ->
           out = (Raise (InvalidLeaveType (lower lt)), s))
        /\ (lower lt ∈ VALID_LEAVE_TYPES ->
              (strptime_ymd sd = None -> out = (Raise (BadDate sd), s))
              /\ (forall a, strptime_ymd sd = Some a ->
                    (strptime_ymd ed = None -> out = (Raise (BadDate ed), s))
                    /\ (forall b, strptime_ymd ed = Some b ->
                          (date_ltb b a = true -> out = (Raise EndBeforeStart, s))
                          /\ (date_ltb b a = false ->
                                let n := toordinal b - toordinal a + 1 in
                                let bal := default 0 (leave_balance emp !! lower lt) in
                                (bal < n ->
                                   out = (Raise (Insufficient (lower lt) n bal), s))
                                /\ (n <= bal ->
                                      exists r s',
                                        out = (Ok r, s')
                                        /\ status r = pending
                                        /\ days r = n))))))
  /\ (forall x y t n b,
        EmployeeNotFound x <> InvalidLeaveType y
        /\ EmployeeNotFound x <> EndBeforeStart
        /\ EmployeeNotFound x <> Insufficient t n b
        /\ InvalidLeaveType y <> EndBeforeStart
        /\ InvalidLeaveType y <> Insufficient t n b
        /\ EndBeforeStart <> Insufficient t n b).
Proof.
  cbv zeta. unfold create_leave, _count_days, _parse_date. unfold_M.
  split; [intros ->; reflexivity|]. split.
  - intros emp ->. split.
    + intros Hlt. rewrite decide_False by exact Hlt. reflexivity.
    + intros Hlt. rewrite decide_True by exact Hlt. split.
      * intros ->. reflexivity.
      * intros a ->. split; [intros ->; reflexivity|].
        intros b ->. split; [intros ->; reflexivity|].
        intros ->. split.
        -- intros Hn. apply Z.gtb_lt in Hn. rewrite Hn. reflexivity.
        -- intros Hn.
           destruct (Z.gtb_spec (toordinal b - toordinal a + 1)
                       (default 0 (leave_balance emp !! lower lt))) as [Hgt|_];
             [lia|].
           eexists _, _. split; [reflexivity|]. split; reflexivity.
  - intros. repeat split; discriminate.
Qed.

(** Scenario: with every earlier check passing, 25 days against a balance
    of 20 is reported as insufficient. *)
Lemma C6_validation_order_witness :
  create_leave "e001" "Annual" "2026-03-01" "2026-03-25" "trip" "t0" "t0" init
  = (Raise (Insufficient "annual" 25 20), init).
Proof.
  destruct (C6_validation_order "e001" "Annual" "2026-03-01" "2026-03-25" "trip"
              "t0" "t0" init) as (_ & H & _).
  destruct (init.(EMPLOYEES) !! "E001") as [emp|] eqn:Hemp;
    [|vm_compute in Hemp; discriminate].
  destruct (H emp Hemp) as (_ & Hvalid).
  destruct Hvalid as (_ & Hstart); [vm_compute; tauto|].
  destruct (Hstart (mk_date 2026 3 1)) as (_ & Hend); [vm_compute; reflexivity|].
  destruct (Hend (mk_date 2026 3 25)) as (_ & Hspan); [vm_compute; reflexivity|].
  destruct Hspan as (Hshort & _); [vm_compute; reflexivity|].
  vm_compute in Hemp. injection Hemp as <-.
  apply Hshort. vm_compute. reflexivity.
Defined.

(** * Case of the request id *)

(** C10 as stated fails: the error of a failed call quotes the id as the
    caller spelled it, so a lower-case id and its upper-case form do not
    give the same outcome. *)
Lemma C10_spelling_is_quoted :
  approve_leave_record "l999" "t0" init
  <> approve_leave_record (upper "l999") "t0" init.
Proof. vm_compute. discriminate. Qed.

(** C10, amended. On an id and on its upper-case form, [get_leave] returns
    the same, and approval, rejection and cancellation end in the same state
    with the same returned record or the same error, up to the spelling of
    the id that the error quotes. *)
Theorem C10_case_insensitive_lookup (lid why now : string) (s : db) :
  get_leave (upper lid) s = get_leave lid s
  /\ approve_leave_record (upper lid) now s
     = respell_outcome (upper lid) (approve_leave_record lid now s)
  /\ reject_leave_record (upper lid) why now s
     = respell_outcome (upper lid) (reject_leave_record lid why now s)
  /\ cancel_leave_record (upper lid) now s
     = respell_outcome (upper lid) (cancel_leave_record lid now s).
Proof.
  unfold get_leave, approve_leave_record, reject_leave_record, cancel_leave_record.
  unfold_M. rewrite upper_idem.
  repeat split; repeat case_match; simplify_eq/=; reflexivity.
Qed.

(** ** Counting calendar days *)

Lemma toordinal_inj (a b : date) :
  in_calendar a -> in_calendar b -> toordinal a = toordinal b -> a = b.
Proof.
  intros Ha Hb Heq.
  destruct (date_ltb b a) eqn:Hba.
  - pose proof (toordinal_lt b a Hb Ha Hba). lia.
  - destruct (date_ltb_false a b Hba) as [->|Hab]; [reflexivity|].
    pose proof (toordinal_lt a b Ha Hb Hab). lia.
Qed.

Lemma tomorrow_in_calendar (d : date) : in_calendar d -> in_calendar (tomorrow d).
Proof.
  intros (Hm & Hd). unfold tomorrow, in_calendar.
  destruct (Z.ltb_spec (day d) (_days_in_month (year d) (month d))); simpl; [lia|].
  destruct (Z.ltb_spec (month d) 12); simpl.
  - pose proof (days_in_month_bounds (year d) (month d + 1)). lia.
  - pose proof (days_in_month_bounds (year d + 1) 1). lia.
Qed.

(** The ordinal advances by one with every calendar day. *)
Lemma toordinal_tomorrow (d : date) :
  in_calendar d -> toordinal (tomorrow d) = toordinal d + 1.
Proof.
  intros (Hm & Hd). unfold tomorrow, toordinal, _ymd2ord.
  destruct (Z.ltb_spec (day d) (_days_in_month (year d) (month d))); simpl; [lia|].
  destruct (Z.ltb_spec (month d) 12); simpl.
  - rewrite days_before_month_succ by lia. lia.
  - assert (H12 : month d = 12) by lia. rewrite H12 in *.
    rewrite days_before_year_succ, days_before_january.
    pose proof (days_before_december (year d)). lia.
Qed.

Lemma days_apart (n : nat) (a b : date) :
  in_calendar a -> in_calendar b ->
  toordinal b = toordinal a + Z.of_nat n -> Nat.iter n tomorrow a = b.
Proof.
  revert a. induction n as [|n IH]; intros a Ha Hb Hn.
  - simpl. apply toordinal_inj; [assumption..|lia].
  - rewrite Nat.iter_succ_r. apply IH; [by apply tomorrow_in_calendar|assumption|].
    rewrite toordinal_tomorrow by assumption. lia.
Qed.

(** C7. A submission that succeeds records the inclusive calendar span of
    its two dates: the difference of their ordinals plus one, which is at
    least 1, is 1 when the two dates are the same day, and counts every
    calendar day from the start to the end, week-ends included: stepping
    [days - 1] times to the next day leads from the start date to the end
    date. *)
Theorem C7_inclusive_day_count (eid lt sd ed why n1 n2 : string) (s s' : db)
    (r : leave) :
  create_leave eid lt sd ed why n1 n2 s = (Ok r, s') ->
  exists a b,
    strptime_ymd sd = Some a /\ strptime_ymd ed = Some b
    /\ days r = (toordinal b - toordinal a) + 1
    /\ 1 <= days r
    /\ Nat.iter (Z.to_nat (days r - 1)) tomorrow a = b
    /\ (a = b -> days r = 1)
    /\ (sd = ed -> days r = 1).
Proof.
  intros H. apply create_leave_inv in H.
  destruct H as (emp & _ & _ & Hdays & _).
  pose proof (count_days_positive _ _ _ Hdays) as Hpos.
  apply count_days_inv in Hdays. destruct Hdays as (a & b & Ha & Hb & Hlt & Hn).
  exists a, b. repeat split; try assumption.
  - apply days_apart.
    + apply valid_in_calendar, (strptime_ymd_valid sd), Ha.
    + apply valid_in_calendar, (strptime_ymd_valid ed), Hb.
    + lia.
  - intros ->. lia.
  - intros ->. assert (a = b) as -> by congruence. lia.
Qed.

Lemma C7_inclusive_day_count_witness :
  exists r s',
    create_leave "E001" "annual" "2026-03-10" "2026-03-12" "trip" "t0" "t0" init
    = (Ok r, s')
    /\ days r = 3
    /\ exists a b,
         strptime_ymd "2026-03-10" = Some a /\ strptime_ymd "2026-03-12" = Some b
         /\ days r = (toordinal b - toordinal a) + 1
         /\ 1 <= days r
         /\ Nat.iter (Z.to_nat (days r - 1)) tomorrow a = b
         /\ (a = b -> days r = 1)
         /\ ("2026-03-10" = "2026-03-12" -> days r = 1).
Proof.
  eexists _, _. split; [vm_compute; reflexivity|]. split; [reflexivity|].
  eapply (C7_inclusive_day_count "E001" "annual" "2026-03-10" "2026-03-12" "trip"
            "t0" "t0" init).
  vm_compute. reflexivity.
Defined.

(** A Friday-to-Monday request counts the week-end: four days. *)
Example friday_to_monday :
  _count_days "2026-03-06" "2026-03-09" = Ok 4.
Proof. vm_compute. reflexivity. Qed.

Example same_day : _count_days "2026-03-10" "2026-03-10" = Ok 1.
Proof. vm_compute. reflexivity. Qed.

Example inverted_span : _count_days "2026-03-12" "2026-03-10" = Raise EndBeforeStart.
Proof. vm_compute. reflexivity. Qed.

(** * Request ids and listings *)

Lemma stored_ids_are_keys (L : list (string * leave)) :
  (forall k r, (k, r) ∈ L -> leave_id r = k) ->
  map leave_id (dict_values L) = dict_keys L.
Proof.
  unfold dict_values, dict_keys. induction L as [|[k r] L IH]; intros H; simpl.
  - reflexivity.
  - f_equal.
    + apply (H k r), list_elem_of_here.
    + apply IH. intros k' r' Hin. apply H, list_elem_of_further, Hin.
Qed.

Lemma wf_stored_ids s :
  wf s -> map leave_id (get_all_leaves s) = ids_upto (length (LEAVES s)).
Proof.
  intros Hwf. unfold get_all_leaves. rewrite stored_ids_are_keys.
  - apply (wf_keys s Hwf).
  - intros k r Hin. apply (wf_records s Hwf k r Hin).
Qed.

(** Requests whose ids are consecutive sequence numbers are listed in the
    order of their creation. *)
Lemma consecutive_ids_sorted (n : nat) : forall (a : nat) (l : list leave),
  map leave_id l = map (fun k => format_id (Z.of_nat k)) (seq a n) ->
  StronglySorted created_before l.
Proof.
  induction n as [|n IH]; intros a l H; destruct l as [|r l]; simpl in H;
    try discriminate; [constructor|].
  injection H as Hr Hl. constructor; [by apply (IH (S a))|].
  apply Forall_forall. intros x Hx.
  assert (Hid : leave_id x ∈ map leave_id l) by (apply list_elem_of_fmap; eauto).
  rewrite Hl in Hid. apply list_elem_of_fmap in Hid. destruct Hid as (k & Hk & Hin).
  apply elem_of_seq in Hin. unfold created_before.
  rewrite Hr, Hk, !leave_number_format_id by lia. lia.
Qed.

Lemma sorted_filter {A : Type} (R : A -> A -> Prop) (P : A -> Prop)
    `{!forall x, Decision (P x)} (l : list A) :
  StronglySorted R l -> StronglySorted R (filter P l).
Proof.
  induction 1 as [|x l Hl IH Hx]; [constructor|].
  rewrite filter_cons. case_decide; [|exact IH].
  constructor; [exact IH|].
  apply Forall_forall. intros y Hy. apply list_elem_of_filter in Hy.
  rewrite Forall_forall in Hx. apply Hx, Hy.
Qed.

Lemma created_before_irrefl (r : leave) : ~ created_before r r.
Proof. unfold created_before. destruct (leave_number (leave_id r)); [lia|tauto]. Qed.

Lemma sorted_NoDup (l : list leave) :
  StronglySorted created_before l -> NoDup l.
Proof.
  induction 1 as [|x l Hl IH Hx]; constructor; [|exact IH].
  intros Hin. rewrite Forall_forall in Hx.
  exact (created_before_irrefl x (Hx x Hin)).
Qed.

Lemma keys_grow s o :
  wf s -> prefix (dict_keys (LEAVES s)) (dict_keys (LEAVES (exec s o))).
Proof.
  intros Hwf. unfold exec.
  destruct (perform o s) as [[r|e] s'] eqn:H; simpl.
  - destruct o; simpl in H.
    + pose proof (wf_create _ _ _ _ _ _ _ _ _ _ Hwf H) as Hwf'.
      apply create_leave_inv in H. destruct H as (emp & _ & _ & _ & _ & _ & ->).
      simpl. rewrite dict_set_fresh.
      * unfold dict_keys. rewrite map_app. by apply prefix_app_r.
      * rewrite (wf_keys s Hwf), (wf_counter s Hwf).
        replace (Z.of_nat (length (LEAVES s)) + 1)
          with (Z.of_nat (S (length (LEAVES s)))) by lia.
        apply ids_upto_fresh.
    + apply approve_inv in H.
      destruct H as (r0 & emp & b & Hget & _ & _ & _ & _ & ->). simpl.
      by rewrite (dict_keys_set_present _ _ r0).
    + apply reject_inv in H. destruct H as (r0 & Hget & _ & _ & ->). simpl.
      by rewrite (dict_keys_set_present _ _ r0).
    + apply cancel_inv in H.
      destruct H as (r0 & Hget & _ & [[_ ->] | (_ & emp & b & _ & _ & ->)]); simpl;
        by rewrite (dict_keys_set_present _ _ r0).
  - apply perform_raise in H. by subst.
Qed.

(** C8. After any sequence of calls the stored requests carry, in creation
    order, the ids [L001], [L002], ... up to their count, each the zero-padded
    decimal of its sequence number; the ids are pairwise different and their
    numbers strictly increase. A submission that succeeds returns the id of
    the next number, greater than the number of every request stored before,
    and appends the request; no call removes or renames an id. *)
Theorem C8_ids_unique_and_increasing (os : list op) :
  let s := run os init in
  let n := length (LEAVES s) in
  map leave_id (get_all_leaves s) = ids_upto n
  /\ dict_keys (LEAVES s) = ids_upto n
  /\ _leave_counter s = Z.of_nat n + 1
  /\ NoDup (map leave_id (get_all_leaves s))
  /\ StronglySorted created_before (get_all_leaves s)
  /\ (forall eid lt sd ed why n1 n2 r s',
        create_leave eid lt sd ed why n1 n2 s = (Ok r, s') ->
        leave_id r = format_id (Z.of_nat (S n))
        /\ leave_number (leave_id r) = Some (Z.of_nat (S n))
        /\ (forall r0, r0 ∈ get_all_leaves s -> created_before r0 r)
        /\ (leave_id r ∉ map leave_id (get_all_leaves s))
        /\ get_all_leaves s' = get_all_leaves s ++ [r])
  /\ (forall o, prefix (dict_keys (LEAVES s)) (dict_keys (LEAVES (exec s o))))
  /\ (forall k, 0 <= k -> leave_number (format_id k) = Some k)
  /\ format_id 1 = "L001" /\ format_id 2 = "L002" /\ format_id 10 = "L010"
  /\ format_id 999 = "L999" /\ format_id 1000 = "L1000".
Proof.
  cbv zeta.
  pose proof (reachable_wf _ (reachable_run os init reachable_init)) as Hwf.
  generalize dependent (run os init). intros s Hwf.
  pose proof (wf_stored_ids s Hwf) as Hids.
  split; [exact Hids|]. split; [apply (wf_keys s Hwf)|].
  split; [apply (wf_counter s Hwf)|].
  assert (Hsorted : StronglySorted created_before (get_all_leaves s))
    by (apply (consecutive_ids_sorted (length (LEAVES s)) 1%nat), Hids).
  split.
  { rewrite Hids. unfold ids_upto. apply NoDup_fmap_2_strong; [|apply NoDup_seq].
    intros a b Ha Hb Heq. apply format_id_inj in Heq; lia. }
  split; [exact Hsorted|]. split.
  { intros eid lt sd ed why n1 n2 r s' H.
    pose proof (wf_create _ _ _ _ _ _ _ _ _ _ Hwf H) as Hwf'.
    apply create_leave_inv in H. destruct H as (emp & _ & _ & _ & _ & Hr & ->).
    assert (Hid : leave_id r = format_id (Z.of_nat (S (length (LEAVES s))))).
    { rewrite Hr. simpl. rewrite (wf_counter s Hwf). f_equal. lia. }
    assert (Hfresh : leave_id r ∉ map leave_id (get_all_leaves s))
      by (rewrite Hid, Hids; apply ids_upto_fresh).
    split; [exact Hid|]. split; [rewrite Hid; apply leave_number_format_id; lia|].
    split; [|split; [exact Hfresh|]].
    - intros r0 Hin.
      assert (Hin0 : leave_id r0 ∈ map leave_id (get_all_leaves s))
        by (apply list_elem_of_fmap; eauto).
      rewrite Hids in Hin0. apply list_elem_of_fmap in Hin0.
      destruct Hin0 as (k & Hk & Hseq). apply elem_of_seq in Hseq.
      unfold created_before. rewrite Hk, Hid, !leave_number_format_id by lia. lia.
    - unfold get_all_leaves. simpl. rewrite dict_set_fresh.
      + unfold dict_values. by rewrite map_app.
      + rewrite <- (stored_ids_are_keys (LEAVES s)).
        * rewrite Hr in Hfresh. exact Hfresh.
        * intros k r1 Hin. apply (wf_records s Hwf k r1 Hin). }
  split; [intros o; by apply keys_grow|].
  split; [apply leave_number_format_id|].
  repeat split; vm_compute; reflexivity.
Qed.

(** C9. After any sequence of calls, the pending listing holds exactly the
    stored requests whose status is pending and the listing of an employee
    exactly the stored requests of that employee (the id compared in upper
    case), each request once, in the order of the store, which is the order
    of creation. *)
Theorem C9_listings (os : list op) (eid : string) :
  let s := run os init in
  (forall r, r ∈ get_pending_leaves s
             <-> r ∈ get_all_leaves s /\ status r = pending)
  /\ (forall r, r ∈ get_employee_leaves eid s
                <-> r ∈ get_all_leaves s /\ employee_id r = upper eid)
  /\ get_pending_leaves s `sublist_of` get_all_leaves s
  /\ get_employee_leaves eid s `sublist_of` get_all_leaves s
  /\ StronglySorted created_before (get_all_leaves s)
  /\ StronglySorted created_before (get_pending_leaves s)
  /\ StronglySorted created_before (get_employee_leaves eid s)
  /\ NoDup (get_pending_leaves s) /\ NoDup (get_employee_leaves eid s).
Proof.
  cbv zeta.
  pose proof (reachable_wf _ (reachable_run os init reachable_init)) as Hwf.
  generalize dependent (run os init). intros s Hwf.
  assert (Hsorted : StronglySorted created_before (get_all_leaves s))
    by (apply (consecutive_ids_sorted (length (LEAVES s)) 1%nat), wf_stored_ids, Hwf).
  unfold get_pending_leaves, get_employee_leaves. fold (get_all_leaves s).
  split; [intros r; rewrite list_elem_of_filter; tauto|].
  split; [intros r; rewrite list_elem_of_filter; tauto|].
  split; [apply sublist_filter|]. split; [apply sublist_filter|].
  split; [exact Hsorted|].
  split; [by apply sorted_filter|]. split; [by apply sorted_filter|].
  split; apply sorted_NoDup; by apply sorted_filter.
Qed.

(** * The scenarios of the specification, evaluated *)

(** A three-day request is stored pending and the balance is untouched. *)
Example scenario_submit :
  exists r s,
    create_leave "E001" "annual" "2026-03-10" "2026-03-12" "trip" "t0" "t0" init
    = (Ok r, s)
    /\ leave_id r = "L001" /\ status r = pending /\ days r = 3
    /\ balance s "E001" "annual" = Some 20.
Proof. eexists _, _. repeat split; vm_compute; reflexivity. Qed.

(** Approving it debits three days; cancelling it then credits them back. *)
Example scenario_approve_cancel :
  balance (run (one_pending ++ [Approve "L001" "t1"]) init) "E001" "annual" = Some 17
  /\ balance (run (one_pending ++ [Approve "L001" "t1"; Cancel "L001" "t2"]) init)
       "E001" "annual" = Some 20
  /\ option_map status
       (get_leave "L001"
          (run (one_pending ++ [Approve "L001" "t1"; Cancel "L001" "t2"]) init))
     = Some cancelled.
Proof. repeat split; vm_compute; reflexivity. Qed.

(** A rejected request keeps its reason and cannot be approved. *)
Example scenario_reject :
  option_map rejection_reason (get_leave "L001" (run one_rejected init))
  = Some (Some "project deadline")
  /\ fst (approve_leave_record "L001" "t2" (run one_rejected init))
     = Raise (NotPending "L001" rejected approved).
Proof. split; vm_compute; reflexivity. Qed.

(** An unknown id is not found. *)
Example scenario_unknown_id :
  get_leave "L999" init = None
  /\ approve_leave_record "L999" "t0" init = (Raise (LeaveNotFound "L999"), init).
Proof. split; vm_compute; reflexivity. Qed.


(** * The steps of the store *)

Lemma exec_step s o : wf s -> exec s o = s \/ step s (exec s o).
Proof.
  intros Hwf. unfold exec.
  destruct (perform o s) as [[r|e] s'] eqn:H; simpl;
    [|left; by apply perform_raise in H].
  right. destruct o as [eid lt sd ed why n1 n2|lid now|lid why now|lid now];
    simpl in H.
  - apply create_leave_inv in H.
    destruct H as (emp & Hemp & Hlt & Hdays & Hle & Hr & ->).
    rewrite dict_set_fresh.
    + rewrite Hr. simpl. by eapply step_submit.
    + rewrite (wf_keys s Hwf), (wf_counter s Hwf).
      replace (Z.of_nat (length (LEAVES s)) + 1)
        with (Z.of_nat (S (length (LEAVES s)))) by lia.
      apply ids_upto_fresh.
  - apply approve_inv in H.
    destruct H as (r0 & emp & b & Hget & Hst & Hemp & Hb & -> & ->).
    by apply step_approve.
  - apply reject_inv in H. destruct H as (r0 & Hget & Hst & -> & ->).
    by apply step_reject.
  - apply cancel_inv in H.
    destruct H as (r0 & Hget & -> & [[Hst ->] | (Hst & emp & b & Hemp & Hb & ->)]).
    + by apply step_cancel_pending.
    + by apply step_cancel_approved.
Qed.

(** An invariant of the steps holds after every sequence of calls. *)
Lemma steps_invariant (P : db -> Prop) :
  P init ->
  (forall s s', wf s -> P s -> step s s' -> P s') ->
  forall s, reachable s -> P s.
Proof.
  intros Hinit Hstep s Hs. induction Hs as [|s o Hs IH]; [exact Hinit|].
  destruct (exec_step s o (reachable_wf s Hs)) as [-> | Hst]; [exact IH|].
  eapply Hstep; eauto using reachable_wf.
Qed.


(** * The ledger *)

Lemma total_app f l1 l2 : total f (l1 ++ l2) = total f l1 + total f l2.
Proof. induction l1 as [|r l1 IH]; simpl; [reflexivity|]. rewrite IH. lia. Qed.

(** Assigning to the record under a key exchanges that record's share of a
    total. *)
Lemma total_set f k (v0 v : leave) (d : list (string * leave)) :
  dict_get k d = Some v0 ->
  total f (dict_values (dict_set k v d)) = total f (dict_values d) - f v0 + f v.
Proof.
  unfold dict_values. induction d as [|[k' v'] d IH]; simpl; [discriminate|].
  destruct (decide (k' = k)) as [->|Hne]; simpl.
  - intros [= ->]. lia.
  - intros H. rewrite (IH H). lia.
Qed.

Lemma total_nonneg f l : (forall r, r ∈ l -> 0 <= f r) -> 0 <= total f l.
Proof.
  induction l as [|r l IH]; intros H; simpl; [lia|].
  pose proof (H r (list_elem_of_here _ _)).
  assert (0 <= total f l) by (apply IH; intros x Hx; apply H, list_elem_of_further, Hx).
  lia.
Qed.

Lemma debit_of_status e t r st now :
  st <> approved -> debit_of e t (set_updated_at now (set_status st r)) = 0.
Proof. intros H. unfold debit_of. simpl. rewrite decide_False; [reflexivity|tauto]. Qed.

Lemma debit_of_not_approved e t r : status r <> approved -> debit_of e t r = 0.
Proof. intros H. unfold debit_of. rewrite decide_False; [reflexivity|tauto]. Qed.

Lemma debit_of_approved e t r :
  status r = approved ->
  debit_of e t r
  = if decide (e = employee_id r /\ t = leave_type r) then days r else 0.
Proof.
  intros Hst. unfold debit_of.
  destruct (decide (e = employee_id r /\ t = leave_type r)) as [[-> ->]|Hne].
  - by rewrite decide_True.
  - rewrite decide_False; [reflexivity|]. intros (_ & <- & <-). tauto.
Qed.

Lemma ledger_step s s' : ledger s -> step s s' -> ledger s'.
Proof.
  intros Hl Hstep e t. specialize (Hl e t).
  destruct Hstep as [emp eid lt sd ed why n1 n2 n Hemp Hlt Hn Hle
                    |k r emp b now Hget Hst Hemp Hb
                    |k r why now Hget Hst
                    |k r now Hget Hst
                    |k r emp b now Hget Hst Hemp Hb].
  - unfold approved_days, get_all_leaves, dict_values in *. simpl.
    rewrite map_app, total_app. simpl.
    rewrite (debit_of_not_approved e t) by (simpl; discriminate).
    rewrite balance_same_employees, Hl.
    apply option_fmap_ext. intros b0. lia.
  - unfold approved_days, get_all_leaves in *. simpl.
    rewrite (total_set _ _ r) by exact Hget.
    rewrite (debit_of_not_approved e t r) by congruence.
    destruct s as [E L c]. simpl in *.
    rewrite (balance_assign E L c) by exact Hemp.
    rewrite debit_of_approved by reflexivity. simpl.
    destruct (decide (e = employee_id r /\ t = leave_type r)) as [[-> ->]|Hne].
    + assert (Hbal : balance (mk_db E L c) (employee_id r) (leave_type r) = Some b)
        by (unfold balance; simpl; by rewrite Hemp).
      rewrite Hbal in Hl.
      destruct (balance init (employee_id r) (leave_type r)) as [b0|];
        simpl in *; [|discriminate].
      injection Hl as ->. f_equal. lia.
    + rewrite Hl. apply option_fmap_ext. intros b0. lia.
  - unfold approved_days, get_all_leaves in *. simpl.
    rewrite (total_set _ _ r) by exact Hget.
    rewrite (debit_of_not_approved e t r) by congruence.
    rewrite (debit_of_not_approved e t) by (simpl; discriminate).
    rewrite balance_same_employees, Hl.
    apply option_fmap_ext. intros b0. lia.
  - unfold approved_days, get_all_leaves in *. simpl.
    rewrite (total_set _ _ r) by exact Hget.
    rewrite (debit_of_not_approved e t r) by congruence.
    rewrite debit_of_status by discriminate.
    rewrite balance_same_employees, Hl.
    apply option_fmap_ext. intros b0. lia.
  - unfold approved_days, get_all_leaves in *. simpl.
    rewrite (total_set _ _ r) by exact Hget.
    rewrite debit_of_status by discriminate.
    destruct s as [E L c]. simpl in *.
    rewrite (balance_assign E L c) by exact Hemp.
    rewrite (debit_of_approved e t r Hst).
    destruct (decide (e = employee_id r /\ t = leave_type r)) as [[-> ->]|Hne].
    + assert (Hbal : balance (mk_db E L c) (employee_id r) (leave_type r) = Some b)
        by (unfold balance; simpl; by rewrite Hemp).
      rewrite Hbal in Hl.
      destruct (balance init (employee_id r) (leave_type r)) as [b0|];
        simpl in *; [|discriminate].
      injection Hl as ->. f_equal. lia.
    + rewrite Hl. apply option_fmap_ext. intros b0. lia.
Qed.

Lemma reachable_ledger s : reachable s -> ledger s.
Proof.
  apply (steps_invariant ledger).
  - intros e t. unfold approved_days. simpl.
    generalize (balance init e t). intros [b|]; simpl; [f_equal; lia|reflexivity].
  - intros s0 s' _. apply ledger_step.
Qed.

Lemma approved_days_nonneg s e t : wf s -> 0 <= approved_days s e t.
Proof.
  intros Hwf. apply total_nonneg. intros r Hr. unfold debit_of.
  case_decide; [|lia].
  unfold get_all_leaves, dict_values in Hr. apply list_elem_of_fmap in Hr.
  destruct Hr as ([k r'] & -> & Hin). simpl.
  destruct (wf_records s Hwf k r' Hin) as (_ & Hd & _). lia.
Qed.

(** X1. After any sequence of calls, the balance of every employee and leave
    type is the seeded entitlement minus the days of that employee's
    currently approved requests of that type; pending, rejected and
    cancelled requests hold nothing. *)
Theorem ledger_conservation (os : list op) (e t : string) :
  balance (run os init) e t
  = (fun b0 => b0 - approved_days (run os init) e t) <$> balance init e t.
Proof. apply reachable_ledger, reachable_run, reachable_init. Qed.

(** X2. No sequence of calls raises a balance above the seeded entitlement:
    a cancellation never credits more than an approval debited. *)
Theorem balance_never_above_entitlement (os : list op) (e t : string) (b : Z) :
  balance (run os init) e t = Some b ->
  exists b0, balance init e t = Some b0 /\ b <= b0
             /\ (b = b0 <-> approved_days (run os init) e t = 0).
Proof.
  intros Hb.
  rewrite (reachable_ledger _ (reachable_run os init reachable_init)) in Hb.
  pose proof (approved_days_nonneg (run os init) e t
                (reachable_wf _ (reachable_run os init reachable_init))) as Hn.
  destruct (balance init e t) as [b0|]; simpl in Hb; [|discriminate].
  injection Hb as <-. exists b0. split; [reflexivity|]. lia.
Qed.


(** * What stays the same *)

Lemma upper_app (a b : string) : upper (a +:+ b) = upper a +:+ upper b.
Proof. induction a as [|c a IH]; simpl; [reflexivity|]. by rewrite IH. Qed.

Lemma upper_zeros (n : nat) : upper (zeros n) = zeros n.
Proof. induction n as [|n IH]; simpl; [reflexivity|]. by rewrite IH. Qed.

Lemma upper_string_of_uint (d : Decimal.uint) :
  upper (NilEmpty.string_of_uint d) = NilEmpty.string_of_uint d.
Proof. induction d; simpl; try rewrite IHd; reflexivity. Qed.

(** A generated id is already in upper case. *)
Lemma upper_format_id (n : Z) : upper (format_id n) = format_id n.
Proof.
  unfold format_id, format_03d, zero_pad, decimal.
  destruct (n <? 0); simpl;
    rewrite upper_app, upper_zeros, upper_string_of_uint; reflexivity.
Qed.

Lemma upper_lower (s : string) : upper (lower s) = upper s.
Proof.
  induction s as [|c r IH]; simpl; [reflexivity|]. f_equal; [|exact IH].
  destruct c as [[] [] [] [] [] [] [] []]; vm_compute; reflexivity.
Qed.



Lemma seed_entries k e0 :
  EMPLOYEES_seed !! k = Some e0 ->
  emp_id e0 = k /\ upper k = k /\ dom (leave_balance e0) = VALID_LEAVE_TYPES.
Proof.
  intros H. apply elem_of_list_to_map_2 in H. unfold seed_employee in H.
  repeat (apply elem_of_cons in H; destruct H as [H|H];
          [injection H as -> ->; simpl; repeat split; try reflexivity;
           rewrite dom_list_to_map_L; unfold VALID_LEAVE_TYPES; simpl;
           set_solver|]).
  by apply elem_of_nil in H.
Qed.


Lemma same_employee_refl e : same_employee e e.
Proof. repeat split. Qed.

Lemma directory_static_assign s eid lt emp b v :
  directory_static s ->
  EMPLOYEES s !! eid = Some emp -> leave_balance emp !! lt = Some b ->
  forall k,
    option_Forall2 same_employee
      (<[eid := set_leave_balance (<[lt := v]> (leave_balance emp)) emp]>
         (EMPLOYEES s) !! k)
      (EMPLOYEES_seed !! k).
Proof.
  intros Hs Hemp Hb k. specialize (Hs k).
  destruct (decide (eid = k)) as [<-|Hne]; [|by rewrite lookup_insert_ne].
  rewrite lookup_insert_eq. rewrite Hemp in Hs.
  inversion Hs as [e1 e0 Hsame|]; subst. constructor.
  destruct Hsame as (H1 & H2 & H3 & H4 & H5 & H6 & H7).
  repeat split; try assumption. simpl.
  rewrite dom_insert_lookup_L by eauto. exact H7.
Qed.

Lemma record_ok_set_status r st now :
  record_ok r -> status r <> rejected -> st <> rejected ->
  record_ok (set_updated_at now (set_status st r)).
Proof.
  intros (He & Ht & Hd & Hr & Hu1 & Hu2) Hst Hne.
  repeat split; try assumption; simpl.
  - intros Hsome. apply Hr in Hsome. contradiction.
  - intros ->. contradiction.
Qed.

Lemma record_ok_reject r why now :
  record_ok r ->
  record_ok (set_updated_at now (set_rejection_reason why (set_status rejected r))).
Proof.
  intros (He & Ht & Hd & Hr & Hu1 & Hu2).
  repeat split; try assumption; simpl; eauto.
Qed.

Lemma records_after_set (P : leave -> Prop) k r' (L : list (string * leave)) :
  (forall k0 r0, (k0, r0) ∈ L -> P r0) ->
  P r' ->
  forall k0 r0, (k0, r0) ∈ dict_set k r' L -> P r0.
Proof.
  intros HL Hr' k0 r0 Hin. apply dict_set_elem_of in Hin.
  destruct Hin as [[= -> ->]|Hin]; [exact Hr'|eauto].
Qed.

Lemma sound_step s s' : wf s -> sound s -> step s s' -> sound s'.
Proof.
  intros Hwf (Hl & Hd & Hr) Hstep.
  split; [by eapply ledger_step|].
  destruct Hstep as [emp eid lt sd ed why n1 n2 n Hemp Hlt Hn Hle
                    |k r emp b now Hget Hst Hemp Hb
                    |k r why now Hget Hst
                    |k r now Hget Hst
                    |k r emp b now Hget Hst Hemp Hb]; simpl.
  - split; [exact Hd|]. intros k0 r0 Hin. apply elem_of_app in Hin.
    destruct Hin as [Hin|Hin]; [by eapply Hr|].
    apply list_elem_of_singleton in Hin. injection Hin as -> ->.
    pose proof (Hd (upper eid)) as Hk. rewrite Hemp in Hk.
    inversion Hk as [e1 e0 Hsame Heq1 Heq0|]; subst.
    destruct Hsame as (_ & Hname & _).
    repeat split; simpl; try assumption.
    + exists e0. split; [done|]. split; [done|].
      pose proof (Hl (upper eid) (lower lt)) as Hbal.
      pose proof (approved_days_nonneg s (upper eid) (lower lt) Hwf) as Hnn.
      unfold balance in Hbal. simpl in Hbal. rewrite Hemp, <- Heq0 in Hbal.
      destruct (leave_balance emp !! lower lt) as [b|],
        (leave_balance e0 !! lower lt) as [b0|];
        simpl in *; simplify_eq; lia.
    + intros [? [=]].
    + discriminate.
    + apply upper_idem.
    + apply upper_format_id.
  - split; [intros k0; simpl; by eapply directory_static_assign|].
    apply records_after_set; [exact Hr|].
    apply record_ok_set_status; [|congruence|discriminate].
    eapply Hr, dict_get_elem_of, Hget.
  - split; [exact Hd|]. apply records_after_set; [exact Hr|].
    apply record_ok_reject. eapply Hr, dict_get_elem_of, Hget.
  - split; [exact Hd|]. apply records_after_set; [exact Hr|].
    apply record_ok_set_status; [|congruence|discriminate].
    eapply Hr, dict_get_elem_of, Hget.
  - split; [intros k0; simpl; by eapply directory_static_assign|].
    apply records_after_set; [exact Hr|].
    apply record_ok_set_status; [|congruence|discriminate].
    eapply Hr, dict_get_elem_of, Hget.
Qed.

Lemma reachable_sound s : reachable s -> sound s.
Proof.
  apply (steps_invariant sound); [|apply sound_step].
  split; [apply reachable_ledger, reachable_init|]. split.
  - intros k. simpl. destruct (EMPLOYEES_seed !! k); constructor.
    apply same_employee_refl.
  - intros k r Hin. by apply elem_of_nil in Hin.
Qed.


Lemma dict_get_app_l {V : Type} k (v : V) (d d' : list (string * V)) :
  dict_get k d = Some v -> dict_get k (d ++ d') = Some v.
Proof.
  induction d as [|[k0 v0] d IH]; simpl; [discriminate|].
  destruct (decide (k0 = k)); [trivial|exact IH].
Qed.

Lemma dict_get_unique {V : Type} k (v : V) (d : list (string * V)) :
  NoDup (dict_keys d) -> (k, v) ∈ d -> dict_get k d = Some v.
Proof.
  unfold dict_keys. induction d as [|[k0 v0] d IH]; simpl; intros Hnd Hin.
  - by apply elem_of_nil in Hin.
  - apply NoDup_cons in Hnd. destruct Hnd as [Hk0 Hnd].
    apply elem_of_cons in Hin. destruct Hin as [[= -> ->]|Hin].
    + by rewrite decide_True.
    + rewrite decide_False; [by apply IH|].
      intros ->. apply Hk0. apply list_elem_of_fmap. by exists (k, v).
Qed.

Lemma ids_upto_NoDup (n : nat) : NoDup (ids_upto n).
Proof.
  unfold ids_upto. apply NoDup_fmap_2_strong; [|apply NoDup_seq].
  intros a b Ha Hb Heq. apply format_id_inj in Heq; lia.
Qed.

Lemma wf_keys_NoDup s : wf s -> NoDup (dict_keys (LEAVES s)).
Proof. intros Hwf. rewrite (wf_keys s Hwf). apply ids_upto_NoDup. Qed.

Lemma same_request_refl r : same_request r r.
Proof. repeat split. Qed.

Lemma same_request_trans r1 r2 r3 :
  same_request r1 r2 -> same_request r2 r3 -> same_request r1 r3.
Proof. unfold same_request. intros H1 H2. intuition congruence. Qed.

Lemma moves_never_to_pending a b : moves a b -> b <> pending.
Proof. intros [ev H]. destruct a, ev; simpl in H; congruence. Qed.

(** One step, seen from one stored request. *)
Lemma request_after_step s s' k r :
  step s s' -> dict_get k (LEAVES s) = Some r ->
  exists r',
    dict_get k (LEAVES s') = Some r' /\ same_request r r'
    /\ (r' = r \/ moves (status r) (status r'))
    /\ (status r = rejected \/ status r = cancelled -> r' = r).
Proof.
  intros Hstep Hk.
  assert (Hsame : exists r', dict_get k (LEAVES s) = Some r' /\ same_request r r'
            /\ (r' = r \/ moves (status r) (status r'))
            /\ (status r = rejected \/ status r = cancelled -> r' = r))
    by (exists r; auto using same_request_refl).
  destruct Hstep as [emp eid lt sd ed why n1 n2 n Hemp Hlt Hn Hle
                    |k0 r0 emp b now Hget Hst Hemp Hb
                    |k0 r0 why now Hget Hst
                    |k0 r0 now Hget Hst
                    |k0 r0 emp b now Hget Hst Hemp Hb]; simpl;
    [exists r; split; [by apply dict_get_app_l|auto using same_request_refl]
    |destruct (decide (k0 = k)) as [->|Hne];
     [|rewrite dict_get_set_ne by exact Hne; exact Hsame]..];
    rewrite dict_get_set_eq; rewrite Hk in Hget; injection Hget as ->;
    eexists; (split; [reflexivity|]); (split; [repeat split|]);
    (split; [right; rewrite Hst|intros [?|?]; congruence]).
  - by exists approve.
  - by exists reject.
  - by exists cancel.
  - by exists cancel.
Qed.

Lemma request_persists os : forall s k r,
  reachable s -> dict_get k (LEAVES s) = Some r ->
  exists r',
    dict_get k (LEAVES (run os s)) = Some r' /\ same_request r r'
    /\ rtc moves (status r) (status r')
    /\ (status r = rejected \/ status r = cancelled -> r' = r).
Proof.
  induction os as [|o os IH]; intros s k r Hs Hk; simpl.
  - exists r. split; [exact Hk|]. split; [apply same_request_refl|].
    split; [reflexivity|auto].
  - assert (H1 : exists r1,
              dict_get k (LEAVES (exec s o)) = Some r1 /\ same_request r r1
              /\ (r1 = r \/ moves (status r) (status r1))
              /\ (status r = rejected \/ status r = cancelled -> r1 = r)).
    { destruct (exec_step s o (reachable_wf s Hs)) as [-> | Hst].
      - exists r. auto using same_request_refl.
      - by apply (request_after_step s). }
    destruct H1 as (r1 & Hk1 & Hsame1 & Hmove1 & Hterm1).
    destruct (IH (exec s o) k r1 (reachable_step s o Hs) Hk1)
      as (r' & Hk' & Hsame' & Hmove' & Hterm').
    exists r'. split; [exact Hk'|]. split; [by eapply same_request_trans|].
    split.
    + destruct Hmove1 as [-> | Hm]; [exact Hmove'|by eapply rtc_l].
    + intros Ht. specialize (Hterm1 Ht). subst r1. auto.
Qed.

Lemma rtc_moves_not_pending a b : rtc moves a b -> a <> pending -> b <> pending.
Proof.
  induction 1 as [|a b c Hab Hbc IH]; [trivial|].
  intros _. apply IH. by eapply moves_never_to_pending.
Qed.

(** X3. A stored request is never deleted or replaced: after any further
    calls it is still found under its id, with the same id, employee, leave
    type, dates, days, reason and creation time; its status has moved only
    along the transition table, never back to pending; and a rejected or
    cancelled request is the very same record for ever. *)
Theorem requests_persist (os os' : list op) (lid : string) (r : leave) :
  get_leave lid (run os init) = Some r ->
  exists r',
    get_leave lid (run os' (run os init)) = Some r'
    /\ same_request r r'
    /\ rtc moves (status r) (status r')
    /\ (status r <> pending -> status r' <> pending)
    /\ (status r = rejected \/ status r = cancelled -> r' = r).
Proof.
  intros H.
  destruct (request_persists os' (run os init) (upper lid) r
              (reachable_run os init reachable_init) H)
    as (r' & Hk & Hsame & Hmove & Hterm).
  exists r'. repeat split; try assumption; try apply Hsame.
  by apply rtc_moves_not_pending.
Qed.

(** X4. In every reachable state a stored request carries a rejection reason
    exactly when its status is rejected. *)
Theorem rejection_reason_iff_rejected (os : list op) (r : leave) :
  r ∈ get_all_leaves (run os init) ->
  (is_Some (rejection_reason r) <-> status r = rejected).
Proof.
  intros Hin. unfold get_all_leaves, dict_values in Hin.
  apply list_elem_of_fmap in Hin. destruct Hin as ([k r0] & -> & Hin).
  destruct (reachable_sound _ (reachable_run os init reachable_init))
    as (_ & _ & Hr).
  apply (Hr k r0 Hin).
Qed.

(** X5. In every reachable state a stored request is consistent: it is
    found under its own id; its employee id is in upper case and names an
    employee of the directory, whose name it carries and who has a balance
    entry for its leave type; the leave type is one of the five; its days
    are the inclusive count of its own two dates, at least 1 and at most the
    seeded entitlement. *)
Theorem stored_requests_are_consistent (os : list op) (r : leave) :
  r ∈ get_all_leaves (run os init) ->
  get_leave (leave_id r) (run os init) = Some r
  /\ upper (employee_id r) = employee_id r
  /\ (exists emp b0,
        EMPLOYEES (run os init) !! employee_id r = Some emp
        /\ emp_id emp = employee_id r
        /\ emp_name emp = employee_name r
        /\ is_Some (leave_balance emp !! leave_type r)
        /\ balance init (employee_id r) (leave_type r) = Some b0
        /\ days r <= b0)
  /\ leave_type r ∈ VALID_LEAVE_TYPES
  /\ _count_days (start_date r) (end_date r) = Ok (days r)
  /\ 1 <= days r.
Proof.
  intros Hin. unfold get_all_leaves, dict_values in Hin.
  apply list_elem_of_fmap in Hin. destruct Hin as ([k r0] & -> & Hin). simpl.
  pose proof (reachable_run os init reachable_init) as Hreach.
  pose proof (reachable_wf _ Hreach) as Hwf.
  destruct (reachable_sound _ Hreach) as (_ & Hd & Hr).
  destruct (Hr k r0 Hin) as ((e0 & He0 & Hname & Hle) & Ht & Hdays & _ & Hu1 & Hu2).
  destruct (wf_records _ Hwf k r0 Hin) as (Hid & Hpos & Hbal).
  split.
  { unfold get_leave. rewrite Hu2, Hid.
    apply dict_get_unique; [by apply wf_keys_NoDup|exact Hin]. }
  split; [exact Hu1|]. split; [|auto].
  pose proof (Hd (employee_id r0)) as Hk. rewrite He0 in Hk.
  inversion Hk as [emp e0' Hsame Heq1 Heq0|]; subst.
  destruct Hsame as (Hsid & Hsname & _).
  destruct (seed_entries _ _ He0) as (Hkey & _ & _).
  unfold balance in Hbal. rewrite <- Heq1 in Hbal.
  assert (Hb0 : is_Some (leave_balance e0 !! leave_type r0)).
  { destruct (leave_balance e0 !! leave_type r0) eqn:E; [eauto|].
    simpl in Hle. lia. }
  destruct Hb0 as [b0 Hb0]. exists emp, b0.
  rewrite Hb0 in Hle. simpl in Hle.
  repeat split; try congruence; try assumption.
  unfold balance. simpl. by rewrite He0.
Qed.

(** X6. No sequence of calls adds, removes or renames an employee: the
    directory keeps the seeded ids, every employee keeps id, name,
    department, role, email and manager, is stored under its own id, and has
    a balance entry for exactly the five leave types; only the numbers in
    those entries change. *)
Theorem directory_is_static (os : list op) :
  dom (EMPLOYEES (run os init)) = dom EMPLOYEES_seed
  /\ forall k e,
       EMPLOYEES (run os init) !! k = Some e ->
       emp_id e = k
       /\ dom (leave_balance e) = VALID_LEAVE_TYPES
       /\ exists e0, EMPLOYEES_seed !! k = Some e0 /\ same_employee e e0.
Proof.
  destruct (reachable_sound _ (reachable_run os init reachable_init))
    as (_ & Hd & _).
  split.
  - apply set_eq. intros k. rewrite !elem_of_dom. specialize (Hd k).
    inversion Hd; split; intros [? ?]; simplify_eq; eauto.
  - intros k e He. specialize (Hd k). rewrite He in Hd.
    inversion Hd as [e1 e0 Hsame Heq1 Heq0|]; subst. symmetry in Heq0.
    destruct (seed_entries _ _ Heq0) as (Hid & _ & Hdom).
    destruct Hsame as (H1 & H2 & H3 & H4 & H5 & H6 & H7).
    repeat split; [congruence|congruence|].
    exists e0. repeat split; assumption.
Qed.


(** * Failures *)

(** X7. From a reachable state no call fails with a [KeyError]: every
    exception is one of the four documented kinds (not found, validation,
    insufficient balance, invalid transition), because a stored request
    always names an employee and a leave type that have a balance entry. *)
Theorem no_uncaught_error (os : list op) (o : op) (e : error) (s' : db) :
  perform o (run os init) = (Raise e, s') -> condition_of e <> Uncaught.
Proof.
  pose proof (reachable_wf _ (reachable_run os init reachable_init)) as Hwf.
  generalize dependent (run os init). intros s Hwf H.
  destruct o as [eid lt sd ed why n1 n2|lid now|lid why now|lid now]; simpl in H.
  - unfold create_leave, _count_days, _parse_date in H. unfold_M.
    repeat case_match; simplify_eq/=; discriminate.
  - destruct (dict_get (upper lid) (LEAVES s)) as [r|] eqn:Hget.
    + destruct (decide (status r = pending)) as [Hst|Hst].
      * destruct (wf_stored_balance s _ r Hwf Hget) as (emp & b & Hemp & Hb).
        rewrite (approve_pending lid now s r emp b) in H by assumption.
        discriminate.
      * rewrite (approve_not_pending lid now s r) in H by assumption.
        injection H as <- <-. discriminate.
    + unfold approve_leave_record in H. unfold_M. rewrite Hget in H.
      injection H as <- <-. discriminate.
  - unfold reject_leave_record in H. unfold_M.
    repeat case_match; simplify_eq/=; discriminate.
  - destruct (dict_get (upper lid) (LEAVES s)) as [r|] eqn:Hget.
    + destruct (status r) eqn:Hst.
      * rewrite (cancel_pending lid now s r) in H by assumption. discriminate.
      * destruct (wf_stored_balance s _ r Hwf Hget) as (emp & b & Hemp & Hb).
        rewrite (cancel_approved lid now s r emp b) in H by assumption.
        discriminate.
      * rewrite (cancel_decided lid now s r) in H by (rewrite ?Hst; auto).
        injection H as <- <-. discriminate.
      * rewrite (cancel_decided lid now s r) in H by (rewrite ?Hst; auto).
        injection H as <- <-. discriminate.
    + unfold cancel_leave_record in H. unfold_M. rewrite Hget in H.
      injection H as <- <-. discriminate.
Qed.

(** X8. Approval, rejection and cancellation report a request as not found
    exactly when [get_leave] does not find its id; the error quotes the id
    as given and the state is unchanged. *)
Theorem not_found_iff_unknown (ev : event) (lid why now : string) (s : db) :
  (get_leave lid s = None ->
   fire ev lid why now s = (Raise (LeaveNotFound lid), s))
  /\ (forall x s', fire ev lid why now s = (Raise (LeaveNotFound x), s') ->
                   get_leave lid s = None /\ x = lid /\ s' = s).
Proof.
  unfold get_leave. split.
  - intros H. destruct ev; simpl;
      unfold approve_leave_record, reject_leave_record, cancel_leave_record;
      unfold_M; by rewrite H.
  - intros x s' H. destruct ev; simpl in H;
      unfold approve_leave_record, reject_leave_record, cancel_leave_record in H;
      unfold_M; repeat case_match; simplify_eq/=; auto.
Qed.

(** * Other requests *)

(** X9. A call leaves every request other than the one it addresses exactly
    as it was: a submission changes no stored request, and an approval,
    rejection or cancellation changes none but the request under its own
    id. *)
Theorem other_requests_untouched (os : list op) (o : op) (lid : string) (r : leave) :
  get_leave lid (run os init) = Some r ->
  target o <> Some (upper lid) ->
  get_leave lid (exec (run os init) o) = Some r.
Proof.
  pose proof (reachable_wf _ (reachable_run os init reachable_init)) as Hwf.
  generalize dependent (run os init). intros s Hwf Hget Htarget.
  unfold get_leave in *. unfold exec.
  destruct (perform o s) as [[r1|e] s'] eqn:H; simpl;
    [|by apply perform_raise in H; subst].
  destruct o as [eid lt sd ed why n1 n2|lid0 now|lid0 why now|lid0 now];
    simpl in H, Htarget.
  - apply create_leave_inv in H.
    destruct H as (emp & _ & _ & _ & _ & Hr1 & ->). simpl.
    rewrite dict_set_fresh; [by apply dict_get_app_l|].
    rewrite (wf_keys s Hwf), (wf_counter s Hwf).
    replace (Z.of_nat (length (LEAVES s)) + 1)
      with (Z.of_nat (S (length (LEAVES s)))) by lia.
    apply ids_upto_fresh.
  - apply approve_inv in H. destruct H as (r0 & emp & b & _ & _ & _ & _ & _ & ->).
    simpl. rewrite dict_get_set_ne; [exact Hget|congruence].
  - apply reject_inv in H. destruct H as (r0 & _ & _ & _ & ->).
    simpl. rewrite dict_get_set_ne; [exact Hget|congruence].
  - apply cancel_inv in H.
    destruct H as (r0 & _ & _ & [[_ ->] | (_ & emp & b & _ & _ & ->)]); simpl;
      (rewrite dict_get_set_ne; [exact Hget|congruence]).
Qed.


(** * Submission and the listings *)

Lemma wf_counter_fresh s : wf s -> format_id (_leave_counter s) ∉ dict_keys (LEAVES s).
Proof.
  intros Hwf. rewrite (wf_keys s Hwf), (wf_counter s Hwf).
  replace (Z.of_nat (length (LEAVES s)) + 1)
    with (Z.of_nat (S (length (LEAVES s)))) by lia.
  apply ids_upto_fresh.
Qed.

(** X10. A submission that succeeds can be read back: the returned id, in
    upper or lower case, retrieves the returned record; the record is
    pending, carries the employee id in upper case and the leave type in
    lower case, and is appended to the pending listing and to the listing of
    its employee, with every earlier entry kept in place. *)
Theorem submission_round_trip (os : list op) (eid lt sd ed why n1 n2 : string)
    (r : leave) (s' : db) :
  create_leave eid lt sd ed why n1 n2 (run os init) = (Ok r, s') ->
  get_leave (leave_id r) s' = Some r
  /\ get_leave (lower (leave_id r)) s' = Some r
  /\ status r = pending /\ rejection_reason r = None
  /\ employee_id r = upper eid /\ leave_type r = lower lt
  /\ start_date r = sd /\ end_date r = ed /\ reason r = why
  /\ get_all_leaves s' = get_all_leaves (run os init) ++ [r]
  /\ get_pending_leaves s' = get_pending_leaves (run os init) ++ [r]
  /\ get_employee_leaves eid s' = get_employee_leaves eid (run os init) ++ [r].
Proof.
  pose proof (reachable_wf _ (reachable_run os init reachable_init)) as Hwf.
  generalize dependent (run os init). intros s Hwf H.
  apply create_leave_inv in H. destruct H as (emp & _ & _ & _ & _ & Hr & ->).
  assert (Hid : leave_id r = format_id (_leave_counter s)) by (by rewrite Hr).
  assert (Hget : get_leave (leave_id r)
                   (mk_db (EMPLOYEES s)
                      (dict_set (format_id (_leave_counter s)) r (LEAVES s))
                      (_leave_counter s + 1)) = Some r).
  { unfold get_leave. simpl. rewrite Hid, upper_format_id. apply dict_get_set_eq. }
  split; [exact Hget|].
  split; [unfold get_leave in *; by rewrite upper_lower|].
  assert (Hvals : get_all_leaves
                    (mk_db (EMPLOYEES s)
                       (dict_set (format_id (_leave_counter s)) r (LEAVES s))
                       (_leave_counter s + 1))
                  = get_all_leaves s ++ [r]).
  { unfold get_all_leaves, dict_values. simpl.
    rewrite dict_set_fresh by (by apply wf_counter_fresh). by rewrite map_app. }
  unfold get_pending_leaves, get_employee_leaves.
  fold (get_all_leaves s).
  fold (get_all_leaves (mk_db (EMPLOYEES s)
          (dict_set (format_id (_leave_counter s)) r (LEAVES s))
          (_leave_counter s + 1))).
  rewrite Hvals, !filter_app.
  rewrite Hr at 1 2 3 4 5 6 7. simpl.
  repeat split; try reflexivity.
  - f_equal. rewrite filter_cons_True; [reflexivity|by rewrite Hr].
  - f_equal. rewrite filter_cons_True; [reflexivity|by rewrite Hr].
Qed.

Lemma filter_pending_replaced k r' (l : list leave) :
  status r' <> pending ->
  filter (fun x => status x = pending)
    (map (fun x => if decide (leave_id x = k) then r' else x) l)
  = filter (fun x => leave_id x <> k) (filter (fun x => status x = pending) l).
Proof.
  intros Hr'. induction l as [|x l IH]; simpl; [reflexivity|].
  destruct (decide (leave_id x = k)) as [Hk|Hk].
  - rewrite filter_cons_False by exact Hr'. rewrite IH.
    rewrite (filter_cons (fun x => status x = pending) x).
    case_decide; [|reflexivity].
    rewrite filter_cons_False; [reflexivity|]. intros Hne. by apply Hne.
  - rewrite !(filter_cons (fun x => status x = pending) x).
    case_decide; [|exact IH].
    rewrite filter_cons_True by exact Hk. by rewrite IH.
Qed.

(** The values after an assignment to a stored key: the record under that
    key replaced in place. *)
Lemma values_after_set k r' (L : list (string * leave)) :
  (forall k0 x, (k0, x) ∈ L -> leave_id x = k0) ->
  NoDup (dict_keys L) ->
  dict_get k L <> None ->
  dict_values (dict_set k r' L)
  = map (fun x => if decide (leave_id x = k) then r' else x) (dict_values L).
Proof.
  intros Hid Hnd Hk. unfold dict_values, dict_keys in *.
  induction L as [|[k0 x0] L IH]; simpl in *; [congruence|].
  assert (Hx0 : leave_id x0 = k0) by (apply (Hid k0 x0), list_elem_of_here).
  apply NoDup_cons in Hnd. destruct Hnd as [Hk0 Hnd].
  destruct (decide (k0 = k)) as [->|Hne]; simpl.
  - rewrite decide_True by exact Hx0. f_equal.
    clear IH Hk. induction L as [|[k1 x1] L IH]; simpl; [reflexivity|].
    simpl in Hk0. apply not_elem_of_cons in Hk0. destruct Hk0 as [Hk1 Hk0].
    assert (leave_id x1 = k1)
      by (apply (Hid k1 x1), list_elem_of_further, list_elem_of_here).
    rewrite decide_False by congruence. f_equal.
    apply NoDup_cons in Hnd. destruct Hnd as [_ Hnd].
    apply IH; try assumption.
    intros k2 x2 Hin. apply Hid. apply elem_of_cons in Hin.
    destruct Hin as [->|Hin]; [apply list_elem_of_here|].
    by do 2 apply list_elem_of_further.
  - rewrite decide_False by congruence. f_equal.
    apply IH; try assumption.
    intros k2 x2 Hin. by apply Hid, list_elem_of_further.
Qed.

Lemma wf_values_after_set s k r0 r' :
  wf s -> dict_get k (LEAVES s) = Some r0 ->
  dict_values (dict_set k r' (LEAVES s))
  = map (fun x => if decide (leave_id x = k) then r' else x) (get_all_leaves s).
Proof.
  intros Hwf Hget. apply values_after_set.
  - intros k0 x Hin. apply (wf_records s Hwf k0 x Hin).
  - by apply wf_keys_NoDup.
  - congruence.
Qed.

(** X11. After an approval, a rejection or a cancellation that succeeds,
    the pending listing is the former one without the request the call
    addressed, the others in the same order. *)
Theorem pending_listing_after_transition (os : list op) (ev : event)
    (lid why now : string) (r' : leave) (s' : db) :
  fire ev lid why now (run os init) = (Ok r', s') ->
  get_pending_leaves s'
  = filter (fun x => leave_id x <> leave_id r') (get_pending_leaves (run os init))
  /\ (r' ∉ get_pending_leaves s')
  /\ map leave_id (get_all_leaves s') = map leave_id (get_all_leaves (run os init)).
Proof.
  pose proof (reachable_run os init reachable_init) as Hreach.
  pose proof (reachable_wf _ Hreach) as Hwf.
  generalize dependent (run os init). intros s _ Hwf H.
  assert (Hex : exists r0,
            dict_get (upper lid) (LEAVES s) = Some r0
            /\ leave_id r' = leave_id r0 /\ status r' <> pending
            /\ LEAVES s' = dict_set (upper lid) r' (LEAVES s)).
  { destruct ev; simpl in H.
    - apply approve_inv in H.
      destruct H as (r0 & emp & b & Hget & _ & _ & _ & -> & ->). by exists r0.
    - apply reject_inv in H. destruct H as (r0 & Hget & _ & -> & ->). by exists r0.
    - apply cancel_inv in H.
      destruct H as (r0 & Hget & -> & [[_ ->] | (_ & emp & b & _ & _ & ->)]);
        by exists r0. }
  destruct Hex as (r0 & Hget & Hid & Hst & HL).
  assert (Hk : leave_id r0 = upper lid)
    by (apply (wf_records s Hwf _ _ (dict_get_elem_of _ _ _ Hget))).
  assert (Hvals : get_all_leaves s'
            = map (fun x => if decide (leave_id x = upper lid) then r' else x)
                (get_all_leaves s)).
  { unfold get_all_leaves at 1. rewrite HL. by apply (wf_values_after_set s _ r0). }
  assert (Hpend : get_pending_leaves s'
            = filter (fun x => leave_id x <> leave_id r') (get_pending_leaves s)).
  { unfold get_pending_leaves. fold (get_all_leaves s) (get_all_leaves s').
    rewrite Hvals, filter_pending_replaced by exact Hst.
    by rewrite Hid, Hk. }
  split; [exact Hpend|]. split.
  - rewrite Hpend. rewrite list_elem_of_filter. intros [Hne _]. by apply Hne.
  - rewrite Hvals, <- list_fmap_compose. apply list_fmap_ext.
    intros i x _. simpl. case_decide; congruence.
Qed.



(** * Day counts *)

Lemma date_ltb_of_ordinals (a b : date) :
  in_calendar a -> in_calendar b ->
  date_ltb a b = true <-> toordinal a < toordinal b.
Proof.
  intros Ha Hb. split; [by apply toordinal_lt|].
  intros Hlt. destruct (date_ltb a b) eqn:Hab; [reflexivity|].
  pose proof (toordinal_le b a Hb Ha Hab). lia.
Qed.

Lemma count_days_of_dates (sa sb : string) (a b : date) :
  strptime_ymd sa = Some a -> strptime_ymd sb = Some b ->
  _count_days sa sb
  = if date_ltb b a then Raise EndBeforeStart
    else Ok (toordinal b - toordinal a + 1).
Proof. intros Ha Hb. unfold _count_days, _parse_date. by rewrite Ha, Hb. Qed.

(** X13. Day counts of adjoining spans add up: when a span from [a] to [b]
    and a span from [b] to [c] are both accepted, so is the span from [a] to
    [c], and it counts the days of both with the shared day [b] counted
    once. *)
Theorem count_days_adjoining (a b c : string) (m n : Z) :
  _count_days a b = Ok m -> _count_days b c = Ok n ->
  _count_days a c = Ok (m + n - 1).
Proof.
  intros Hab Hbc.
  apply count_days_inv in Hab. destruct Hab as (da & db & Ha & Hb & Hlt1 & ->).
  apply count_days_inv in Hbc. destruct Hbc as (db' & dc & Hb' & Hc & Hlt2 & ->).
  assert (db' = db) as -> by congruence.
  pose proof (valid_in_calendar _ (strptime_ymd_valid _ _ Ha)) as Ia.
  pose proof (valid_in_calendar _ (strptime_ymd_valid _ _ Hb)) as Ib.
  pose proof (valid_in_calendar _ (strptime_ymd_valid _ _ Hc)) as Ic.
  pose proof (toordinal_le da db Ia Ib Hlt1).
  pose proof (toordinal_le db dc Ib Ic Hlt2).
  rewrite (count_days_of_dates a c da dc) by assumption.
  destruct (date_ltb dc da) eqn:Hca.
  - apply date_ltb_of_ordinals in Hca; [lia|assumption..].
  - f_equal. lia.
Qed.

(** X14. Swapping the two dates of an accepted span is rejected as an
    inverted range, unless the span is a single day, which reads the same
    both ways. *)
Theorem count_days_swapped (a b : string) (n : Z) :
  _count_days a b = Ok n ->
  _count_days b a = if decide (n = 1) then Ok 1 else Raise EndBeforeStart.
Proof.
  intros Hab.
  apply count_days_inv in Hab. destruct Hab as (da & db & Ha & Hb & Hlt & ->).
  pose proof (valid_in_calendar _ (strptime_ymd_valid _ _ Ha)) as Ia.
  pose proof (valid_in_calendar _ (strptime_ymd_valid _ _ Hb)) as Ib.
  pose proof (toordinal_le da db Ia Ib Hlt).
  rewrite (count_days_of_dates b a db da) by assumption.
  destruct (date_ltb da db) eqn:Hd.
  - apply date_ltb_of_ordinals in Hd; [|assumption..].
    rewrite decide_False by lia. reflexivity.
  - pose proof (toordinal_le db da Ib Ia Hd).
    rewrite decide_True by lia. f_equal. lia.
Qed.

(** * The listing of an employee *)

Lemma filter_none {A : Type} (P : A -> Prop) `{!forall x, Decision (P x)}
    (l : list A) :
  (forall x, x ∈ l -> ~ P x) -> filter P l = [].
Proof.
  induction l as [|x l IH]; intros Hl; [reflexivity|].
  rewrite filter_cons_False by apply Hl, list_elem_of_here.
  apply IH. intros y Hy. by apply Hl, list_elem_of_further.
Qed.

(** X15. The listing of an employee reads the id without regard to letter
    case; in a reachable state it is empty for an id that is not in the
    directory, and every stored request is in the listing of the employee it
    names and in the listing of no other employee id (compared in upper
    case). *)
Theorem employee_listing (os : list op) (eid : string) :
  get_employee_leaves (upper eid) (run os init)
  = get_employee_leaves eid (run os init)
  /\ get_employee_leaves (lower eid) (run os init)
     = get_employee_leaves eid (run os init)
  /\ (EMPLOYEES (run os init) !! upper eid = None ->
      get_employee_leaves eid (run os init) = [])
  /\ (forall r, r ∈ get_all_leaves (run os init) ->
                r ∈ get_employee_leaves (employee_id r) (run os init)
                /\ (r ∈ get_employee_leaves eid (run os init)
                    <-> upper eid = employee_id r)).
Proof.
  pose proof (reachable_run os init reachable_init) as Hreach.
  pose proof (reachable_wf _ Hreach) as Hwf.
  destruct (reachable_sound _ Hreach) as (_ & _ & Hr).
  generalize dependent (run os init). intros s _ Hwf Hr.
  unfold get_employee_leaves. rewrite upper_idem, upper_lower.
  split; [reflexivity|]. split; [reflexivity|]. split.
  - intros Hnone. apply filter_none. intros r Hin Heq.
    unfold dict_values in Hin. apply list_elem_of_fmap in Hin.
    destruct Hin as ([k r0] & -> & Hin). simpl in Heq.
    destruct (wf_records s Hwf k r0 Hin) as (_ & _ & [b Hb]).
    unfold balance in Hb. rewrite Heq, Hnone in Hb. discriminate.
  - intros r Hin. fold (get_all_leaves s).
    assert (Hu : upper (employee_id r) = employee_id r).
    { unfold get_all_leaves, dict_values in Hin. apply list_elem_of_fmap in Hin.
      destruct Hin as ([k r0] & -> & Hin). apply (Hr k r0 Hin). }
    rewrite !list_elem_of_filter, Hu. split; [by split|].
    split; [by intros [-> _]|by intros ->].
Qed.


(** * The employee directory *)





Lemma seed_keys (k : string) : k ∈ dom EMPLOYEES_seed <-> k ∈ EMPLOYEES_keys.
Proof.
  unfold EMPLOYEES_seed, EMPLOYEES_keys, seed_employee.
  rewrite dom_list_to_map_L. simpl. set_solver.
Qed.

Lemma omap_Forall2 {A B : Type} (R : A -> B -> Prop) (f : string -> option A)
    (g : string -> option B) (ks : list string) :
  (forall k, option_Forall2 R (f k) (g k)) ->
  Forall2 R (omap f ks) (omap g ks).
Proof.
  intros H. induction ks as [|k ks IH]; simpl; [constructor|].
  destruct (H k); [by constructor|exact IH].
Qed.

Lemma reachable_employees s :
  reachable s ->
  Forall2 same_employee (get_all_employees s) (get_all_employees init)
  /\ map emp_id (get_all_employees s) = EMPLOYEES_keys.
Proof.
  intros Hs. destruct (reachable_sound s Hs) as (_ & Hd & _).
  assert (HF : Forall2 same_employee (get_all_employees s) (get_all_employees init))
    by (apply omap_Forall2, Hd).
  split; [exact HF|].
  transitivity (map emp_id (get_all_employees init)); [|vm_compute; reflexivity].
  induction HF as [|e e0 l l0 Hsame _ IH]; simpl; [reflexivity|].
  f_equal; [apply Hsame|exact IH].
Qed.



(** X16. In every reachable state [get_all_employees] lists exactly the
    values of the directory, five employees with the seeded ids in the
    seeded order, each with its seeded name, department, role, email and
    manager; only balances differ from the seed. *)
Theorem all_employees_listing (os : list op) :
  Forall2 same_employee (get_all_employees (run os init)) (get_all_employees init)
  /\ map emp_id (get_all_employees (run os init)) = EMPLOYEES_keys
  /\ forall e, e ∈ get_all_employees (run os init)
               <-> exists k, EMPLOYEES (run os init) !! k = Some e.
Proof.
  pose proof (reachable_run os init reachable_init) as Hreach.
  destruct (reachable_employees _ Hreach) as (HF & Hids).
  destruct (reachable_sound _ Hreach) as (_ & Hd & _).
  split; [exact HF|]. split; [exact Hids|].
  intros e. unfold get_all_employees. rewrite list_elem_of_omap. split.
  - intros (k & _ & Hk). eauto.
  - intros (k & Hk). exists k. split; [|exact Hk].
    apply seed_keys, elem_of_dom. specialize (Hd k). rewrite Hk in Hd.
    inversion Hd; eauto.
Qed.

(** X17. Looking an employee up by a non-empty id ignores the name argument
    and the letter case of the id; in a reachable state it finds the
    employee stored under the upper-case id, who carries that id and is one
    of the listed employees, and it finds nothing exactly when the
    upper-case id is not one of the five seeded ids, whatever the name. *)
Theorem find_employee_by_id (os : list op) (c : ascii) (i : string)
    (name : option string) :
  let eid := String c i in
  find_employee (Some eid) name (run os init)
  = find_employee (Some eid) None (run os init)
  /\ find_employee (Some (lower eid)) name (run os init)
     = find_employee (Some eid) name (run os init)
  /\ find_employee (Some (upper eid)) name (run os init)
     = find_employee (Some eid) name (run os init)
  /\ (forall emp,
        find_employee (Some eid) name (run os init) = Some emp ->
        emp_id emp = upper eid /\ emp ∈ get_all_employees (run os init))
  /\ (find_employee (Some eid) name (run os init) = None
      <-> upper eid ∉ EMPLOYEES_keys).
Proof.
  cbv zeta.
  pose proof (reachable_run os init reachable_init) as Hreach.
  destruct (reachable_sound _ Hreach) as (_ & Hd & _).
  generalize dependent (run os init). intros s Hreach Hd.
  split; [reflexivity|].
  split; [simpl; f_equal; f_equal; [|apply upper_lower];
          destruct c as [[] [] [] [] [] [] [] []]; vm_compute; reflexivity|].
  split; [simpl; f_equal; f_equal; [|apply upper_idem];
          destruct c as [[] [] [] [] [] [] [] []]; vm_compute; reflexivity|].
  unfold find_employee. generalize (upper (String c i)). intros k.
  pose proof (Hd k) as Hk. split.
  - intros emp Hemp. rewrite Hemp in Hk.
    inversion Hk as [e1 e0 Hsame Heq1 Heq0|]; subst. symmetry in Heq0.
    destruct (seed_entries _ _ Heq0) as (Hid & _ & _).
    destruct Hsame as (Hsid & _). split; [rewrite Hsid; exact Hid|].
    unfold get_all_employees. apply list_elem_of_omap.
    exists k. split; [|exact Hemp].
    apply seed_keys, elem_of_dom. eauto.
  - rewrite <- seed_keys, not_elem_of_dom.
    destruct Hk; split; intros; congruence.
Qed.



(** * Ids as text *)

Lemma ascending_sorted (l : list string) :
  ascending l = true -> StronglySorted str_lt l.
Proof.
  induction l as [|x l IH]; simpl; [constructor|].
  rewrite andb_true_iff. intros [Hx Hl]. constructor; [by apply IH|].
  apply Forall_forall. intros y Hy. rewrite forallb_forall in Hx.
  apply list_elem_of_In in Hy. specialize (Hx y Hy).
  unfold str_ltb, str_lt in *.
  destruct (String.compare x y); congruence.
Qed.

Lemma sorted_seq_pairs {A : Type} (R : A -> A -> Prop) (f : nat -> A) (n : nat) :
  forall (s : nat),
    StronglySorted R (map f (seq s n)) ->
    forall i j, (s <= i < j)%nat -> (j < s + n)%nat -> R (f i) (f j).
Proof.
  induction n as [|n IH]; intros s Hs i j Hij Hj; [lia|].
  simpl in Hs. apply StronglySorted_cons in Hs. destruct Hs as [Hall Hs].
  destruct (decide (i = s)) as [->|Hne].
  - rewrite Forall_forall in Hall. apply Hall.
    apply list_elem_of_fmap. exists j. split; [reflexivity|].
    apply elem_of_seq. lia.
  - apply (IH (S s) Hs); lia.
Qed.

Lemma ids_ascending : ascending (ids_upto 999) = true.
Proof. vm_compute. reflexivity. Qed.

Lemma ids_width : forallb (fun i => Nat.eqb (String.length i) 4) (ids_upto 999) = true.
Proof. vm_compute. reflexivity. Qed.

(** X19. The first 999 request ids are four characters long and sort as
    text in the order of their numbers; the padding stops there: [L1000] has
    five characters and sorts before [L999]. *)
Theorem ids_sort_as_text (a b : Z) :
  1 <= a -> a < b -> b <= 999 ->
  str_lt (format_id a) (format_id b)
  /\ String.length (format_id a) = 4%nat /\ String.length (format_id b) = 4%nat
  /\ String.length (format_id 1000) = 5%nat
  /\ str_lt (format_id 1000) (format_id 999).
Proof.
  intros Ha Hab Hb.
  pose proof (sorted_seq_pairs str_lt (fun k => format_id (Z.of_nat k)) 999 1
                (ascending_sorted _ ids_ascending) (Z.to_nat a) (Z.to_nat b)) as Hlt.
  cbv beta in Hlt. rewrite !Z2Nat.id in Hlt by lia.
  assert (Hw : forall k, 1 <= k <= 999 -> String.length (format_id k) = 4%nat).
  { intros k Hk. pose proof ids_width as H. rewrite forallb_forall in H.
    apply Nat.eqb_eq, H, list_elem_of_In. unfold ids_upto.
    apply list_elem_of_fmap. exists (Z.to_nat k).
    split; [by rewrite Z2Nat.id by lia|]. apply elem_of_seq. lia. }
  split; [apply Hlt; lia|].
  split; [apply Hw; lia|]. split; [apply Hw; lia|].
  split; vm_compute; reflexivity.
Qed.

(** * Repeated calls *)

Lemma fire_raise ev lid why now s e s' :
  fire ev lid why now s = (Raise e, s') -> s' = s.
Proof.
  destruct ev; simpl; eauto using approve_raise, reject_raise, cancel_raise.
Qed.

(** Whether a transition returns does not depend on the clock reading or
    on the reason given. *)
Lemma fire_returns_again ev lid why now why' now' s r s1 :
  fire ev lid why now s = (Ok r, s1) ->
  exists r' s1', fire ev lid why' now' s = (Ok r', s1').
Proof.
  intros H. destruct ev; simpl in *.
  - apply approve_inv in H.
    destruct H as (r0 & emp & b & Hget & Hst & Hemp & Hb & _).
    rewrite (approve_pending lid now' s r0 emp b) by assumption. eauto.
  - apply reject_inv in H. destruct H as (r0 & Hget & Hst & _).
    rewrite (reject_pending lid why' now' s r0) by assumption. eauto.
  - apply cancel_inv in H.
    destruct H as (r0 & Hget & _ & [[Hst _] | (Hst & emp & b & Hemp & Hb & _)]).
    + rewrite (cancel_pending lid now' s r0) by assumption. eauto.
    + rewrite (cancel_approved lid now' s r0 emp b) by assumption. eauto.
Qed.

(** X20. Repeating an approval, a rejection or a cancellation of the same
    id has no further effect: the second call leaves the state as the first
    left it, and after a first call that succeeded it fails with the
    invalid-transition error that names the status the first call set. *)
Theorem repeated_transition_changes_nothing (ev : event)
    (lid why why' now now' : string) (s : db) :
  snd (fire ev lid why' now' (snd (fire ev lid why now s)))
  = snd (fire ev lid why now s)
  /\ forall r s1,
       fire ev lid why now s = (Ok r, s1) ->
       exists e,
         fire ev lid why' now' s1 = (Raise e, s1)
         /\ condition_of e = InvalidTransition (status r)
         /\ transition_table (status r) ev = None.
Proof.
  assert (Hsecond : forall r s1,
            fire ev lid why now s = (Ok r, s1) ->
            exists e,
              fire ev lid why' now' s1 = (Raise e, s1)
              /\ condition_of e = InvalidTransition (status r)
              /\ transition_table (status r) ev = None).
  { intros r s1 H. destruct ev; simpl in *.
    - apply approve_inv in H.
      destruct H as (r0 & emp & b & _ & _ & _ & _ & -> & ->).
      eexists. rewrite (approve_not_pending lid now' _
                          (set_updated_at now (set_status approved r0)));
        [repeat split| simpl; apply dict_get_set_eq | discriminate].
    - apply reject_inv in H. destruct H as (r0 & _ & _ & -> & ->).
      eexists. rewrite (reject_not_pending lid why' now' _
                          (set_updated_at now
                             (set_rejection_reason why (set_status rejected r0))));
        [repeat split| simpl; apply dict_get_set_eq | discriminate].
    - apply cancel_inv in H.
      destruct H as (r0 & _ & -> & [[_ ->] | (_ & emp & b & _ & _ & ->)]);
        eexists;
        (rewrite (cancel_decided lid now' _
                    (set_updated_at now (set_status cancelled r0)));
         [repeat split| simpl; apply dict_get_set_eq | simpl; auto]). }
  split; [|exact Hsecond].
  destruct (fire ev lid why now s) as [[r|e] s1] eqn:H1; simpl.
  - destruct (Hsecond r s1 eq_refl) as (e & -> & _). reflexivity.
  - pose proof (fire_raise _ _ _ _ _ _ _ H1) as ->.
    destruct (fire ev lid why' now' s) as [[r2|e2] s2] eqn:H2; simpl.
    + destruct (fire_returns_again ev lid why' now' why now s r2 s2 H2)
        as (r' & s1' & H').
      congruence.
    + by apply fire_raise in H2.
Qed.


(** * Calls on different requests *)











(** * The properties at work on the scenarios *)

Lemma balance_never_above_entitlement_witness :
  exists b0,
    balance init "E001" "annual" = Some b0 /\ 17 <= b0
    /\ (17 = b0 <-> approved_days (run one_approved init) "E001" "annual" = 0).
Proof.
  apply (balance_never_above_entitlement one_approved "E001" "annual" 17).
  vm_compute. reflexivity.
Defined.

Lemma requests_persist_witness :
  exists r',
    get_leave "l001"
      (run [Approve "L001" "t2"; Cancel "L001" "t3"] (run one_rejected init))
    = Some r'
    /\ same_request (trip_request rejected (Some "project deadline") "t1") r'
    /\ rtc moves rejected (status r')
    /\ (rejected <> pending -> status r' <> pending)
    /\ (rejected = rejected \/ rejected = cancelled ->
        r' = trip_request rejected (Some "project deadline") "t1").
Proof.
  apply (requests_persist one_rejected [Approve "L001" "t2"; Cancel "L001" "t3"]
           "l001" (trip_request rejected (Some "project deadline") "t1")).
  vm_compute. reflexivity.
Defined.

Lemma rejection_reason_iff_rejected_witness :
  is_Some (rejection_reason (trip_request rejected (Some "project deadline") "t1"))
  <-> status (trip_request rejected (Some "project deadline") "t1") = rejected.
Proof.
  apply (rejection_reason_iff_rejected one_rejected).
  vm_compute. apply list_elem_of_here.
Defined.

Lemma stored_requests_are_consistent_witness :
  get_leave "L001" (run one_pending init) = Some (trip_request pending None "t0")
  /\ upper "E001" = "E001"
  /\ (exists emp b0,
        EMPLOYEES (run one_pending init) !! "E001" = Some emp
        /\ emp_id emp = "E001"
        /\ emp_name emp = "Alice Johnson"
        /\ is_Some (leave_balance emp !! "annual")
        /\ balance init "E001" "annual" = Some b0
        /\ 3 <= b0)
  /\ "annual" ∈ VALID_LEAVE_TYPES
  /\ _count_days "2026-03-10" "2026-03-12" = Ok 3
  /\ 1 <= 3.
Proof.
  apply (stored_requests_are_consistent one_pending (trip_request pending None "t0")).
  vm_compute. apply list_elem_of_here.
Defined.

Lemma no_uncaught_error_witness :
  condition_of (NotPending "L001" rejected approved) <> Uncaught.
Proof.
  apply (no_uncaught_error one_rejected (Approve "L001" "t2")
           (NotPending "L001" rejected approved) (run one_rejected init)).
  vm_compute. reflexivity.
Defined.

Lemma other_requests_untouched_witness :
  get_leave "L002" (exec (run two_pending init) (Approve "L001" "t2"))
  = Some easter_request.
Proof.
  apply (other_requests_untouched two_pending (Approve "L001" "t2") "L002").
  - vm_compute. reflexivity.
  - vm_compute. discriminate.
Defined.

Lemma submission_round_trip_witness :
  exists s',
    create_leave "e001" "Annual" "2026-03-10" "2026-03-12" "trip" "t0" "t0" init
    = (Ok (trip_request pending None "t0"), s')
    /\ get_leave "L001" s' = Some (trip_request pending None "t0")
    /\ get_leave "l001" s' = Some (trip_request pending None "t0")
    /\ get_pending_leaves s' = [trip_request pending None "t0"].
Proof.
  eexists. split; [vm_compute; reflexivity|].
  destruct (submission_round_trip [] "e001" "Annual" "2026-03-10" "2026-03-12"
              "trip" "t0" "t0" (trip_request pending None "t0") _ eq_refl)
    as (H1 & H2 & _ & _ & _ & _ & _ & _ & _ & _ & H3 & _).
  split; [exact H1|]. split; [exact H2|exact H3].
Defined.

Lemma pending_listing_after_transition_witness :
  exists r' s',
    approve_leave_record "L001" "t2" (run two_pending init) = (Ok r', s')
    /\ get_pending_leaves s' = [easter_request].
Proof.
  destruct (approve_leave_record "L001" "t2" (run two_pending init))
    as [[r'|e] s'] eqn:H; [|vm_compute in H; discriminate].
  exists r', s'. split; [reflexivity|].
  destruct (pending_listing_after_transition two_pending approve "L001" "" "t2"
              r' s' H) as (Hp & _).
  rewrite Hp. vm_compute in H. injection H as <- <-. vm_compute. reflexivity.
Defined.

Lemma count_days_adjoining_witness :
  _count_days "2026-03-10" "2026-03-20" = Ok (3 + 9 - 1).
Proof.
  apply (count_days_adjoining "2026-03-10" "2026-03-12" "2026-03-20" 3 9);
    vm_compute; reflexivity.
Defined.

Lemma count_days_swapped_witness :
  _count_days "2026-03-12" "2026-03-10" = Raise EndBeforeStart.
Proof.
  apply (count_days_swapped "2026-03-10" "2026-03-12" 3).
  vm_compute. reflexivity.
Defined.

Lemma ids_sort_as_text_witness :
  str_lt (format_id 9) (format_id 10)
  /\ String.length (format_id 9) = 4%nat /\ String.length (format_id 10) = 4%nat
  /\ String.length (format_id 1000) = 5%nat
  /\ str_lt (format_id 1000) (format_id 999).
Proof. apply (ids_sort_as_text 9 10); lia. Defined.

